(** * CRXBot: a shallow embedding of the ChemRxiv announcement bot

    The development follows [CRXBot.py]: the message composer
    [prepare_tweet], the thumbnail selector [get_preprint_image_url], the
    poster [tweet_image], the loading of [id_log.txt] and the main loop.

    Conventions of the embedding.
    - A Python [str] is a [string]; its characters are read as the code
      points U+0000..U+00FF, so [len] is [String.length] and [str.lower]
      is the character map [lower_char].
    - Python integers are [Z].
    - A call that may raise returns a [result]; code with effects lives in
      the monad [M], a state monad over [world] whose state survives a
      raised exception (what was written before the exception stays
      written). *)

From Stdlib Require Import String Ascii List ZArith Lia Bool Arith DecimalString.
Import ListNotations.
Open Scope string_scope.

(** ** Python exceptions and results *)

Inductive exn : Type :=
| IndexError
| StopIteration
| HTTPError
| ConnectionError
| TweepError
| FileNotFoundError.

Inductive result (A : Type) : Type :=
| Ok (a : A)
| Raise (e : exn).

Arguments Ok {A} a.
Arguments Raise {A} e.

(** ** Strings *)

Module Str.

Definition LF : ascii := "010"%char.
Definition CR : ascii := "013"%char.

(** [len(s)] *)
Definition len (s : string) : Z := Z.of_nat (String.length s).

Fixpoint map (f : ascii -> ascii) (s : string) : string :=
  match s with
  | EmptyString => EmptyString
  | String c s' => String (f c) (map f s')
  end.

(** [str.lower] on one code point below U+0100: the letters A-Z and the
    Latin-1 capitals U+00C0..U+00DE (the multiplication sign U+00D7
    apart) move up by 32. *)
Definition lower_char (c : ascii) : ascii :=
  let n := nat_of_ascii c in
  if ((65 <=? n) && (n <=? 90)
      || (192 <=? n) && (n <=? 222) && negb (n =? 215))%nat
  then ascii_of_nat (n + 32) else c.

Definition lower (s : string) : string := map lower_char s.

(** [s.replace(a, b)] for single characters [a] and [b]. *)
Definition replace_char (a b : ascii) (s : string) : string :=
  map (fun c => if Ascii.eqb c a then b else c) s.

(** [s.endswith(suffix)] *)
Fixpoint endswith (s suffix : string) : bool :=
  String.eqb s suffix ||
  match s with
  | EmptyString => false
  | String _ s' => endswith s' suffix
  end.

(** [s.lstrip(c)], [s.rstrip(c)] and [s.strip(c)] for a one-character
    set [c]. *)
Fixpoint lstrip (c : ascii) (s : string) : string :=
  match s with
  | EmptyString => EmptyString
  | String a s' => if Ascii.eqb a c then lstrip c s' else s
  end.

Fixpoint rstrip (c : ascii) (s : string) : string :=
  match s with
  | EmptyString => EmptyString
  | String a s' =>
      match rstrip c s' with
      | EmptyString => if Ascii.eqb a c then EmptyString else String a EmptyString
      | r => String a r
      end
  end.

Definition strip (c : ascii) (s : string) : string := rstrip c (lstrip c s).

(** [c in s] for a character [c]. *)
Fixpoint mem (c : ascii) (s : string) : bool :=
  match s with
  | EmptyString => false
  | String a s' => Ascii.eqb a c || mem c s'
  end.

(** [str(n)] for an integer. *)
Definition of_Z (z : Z) : string := NilZero.string_of_int (Z.to_int z).

End Str.

(** ** The message composer *)

Record Author : Type := mkAuthor { full_name : string }.

(** [prepare_tweet] returns [False] or the text. *)
Inductive tweet : Type :=
| Rejected
| Text (tweetText : string).

(** [authors[-1]] *)
Definition last_author (authors : list Author) : result Author :=
  match rev authors with
  | [] => Raise IndexError
  | a :: _ => Ok a
  end.

(** The hashtag of one tag, with the blank that separates it from the
    text before it. *)
Definition hashtag_of (tag : string) : string :=
  " #" ++ Str.replace_char " "%char "-"%char (Str.lower tag).

(** One turn of [for tag in tags]. *)
Definition add_hashtag (tweetText tag : string) : string :=
  let hashtag := hashtag_of tag in
  if (Str.len tweetText + Str.len hashtag <=? 255)%Z
  then tweetText ++ hashtag
  else tweetText.

(** Line 102: the length the platform counts, the URL taken as 23
    characters whatever its length. *)
Definition realtweetlength (tweetText preprintURL : string) : Z :=
  (Str.len tweetText - Str.len preprintURL + 23)%Z.

Definition prepare_tweet (title : string) (authors : list Author)
    (preprintURL : string) (tags : list string) : result tweet :=
  let tweetTitle := title ++ " by " in
  match last_author authors with
  | Raise e => Raise e
  | Ok a =>
      let tweetAuthors := full_name a in
      let tweetAuthors :=
        if (1 <? Z.of_nat (List.length authors))%Z
        then tweetAuthors ++ " & co-workers" else tweetAuthors in
      let tweetText := tweetTitle ++ tweetAuthors in
      let tweetText := fold_left add_hashtag tags tweetText in
      let tweetText := tweetText ++ String Str.LF (String Str.LF EmptyString) ++ preprintURL in
      if (280 <? realtweetlength tweetText preprintURL)%Z
      then Ok Rejected else Ok (Text tweetText)
  end.

(** ** The thumbnail selector *)

(** A file record of the repository; the three keys the code reads. *)
Record FileRecord : Type := mkFile {
  name : string;
  is_link_only : bool;
  download_url : string
}.

(** What [api.files] can hand over: the decoded JSON body, a list of file
    records or a value of some other shape. *)
Inductive files_json : Type :=
| FilesList (files : list FileRecord)
| FilesNull
| FilesBool (b : bool)
| FilesNumber (z : Z)
| FilesString (s : string)
| FilesObject (fields : list (string * string)).

(** [for preprint_file in files: ...] followed by [return '']. *)
Fixpoint scan_files (files : list FileRecord) : string :=
  match files with
  | [] => EmptyString
  | preprint_file :: rest =>
      if is_link_only preprint_file then scan_files rest
      else
        let filename := Str.lower (name preprint_file) in
        if Str.endswith filename ".png" || Str.endswith filename ".jpg"
        then download_url preprint_file
        else scan_files rest
  end.

Definition get_preprint_image_url (files : files_json) : string :=
  match files with
  | FilesList l => scan_files l
  | _ => EmptyString
  end.

(** ** The world the bot acts on *)

(** The messages handed to [write_log], kept with their arguments;
    [render] gives the text of each.  The time stamp that [write_log] puts
    before the text in [activity_log.txt] is left out. *)
Inductive log_entry : Type :=
| LogDownloadError
| LogOffline
| LogImageSize (filesize : Z)
| LogTweetSuccessful (message : string) (lenmessage : Z)
| LogIdLogLoaded
| LogRetrieved (numberPreprints : Z)
| LogNewPreprint
| LogNotice (preprintURL : string)
| LogSubmitting (preprint_id : string)
| LogCommitting
| LogWrote (id : string)
| LogSummary (preprints_added preprints_tweeted preprints_tweeted_FAILED : Z).

Definition render (e : log_entry) : string :=
  match e with
  | LogDownloadError => "Error, couldn't download image. Continue without."
  | LogOffline =>
      "Offline-Tweeting due to user request (--notwitter on command line)."
  | LogImageSize filesize =>
      "Tweet includes image of " ++ Str.of_Z filesize ++ " KBytes."
  | LogTweetSuccessful message lenmessage =>
      "Tweet successful. " ++ message ++ " (" ++ Str.of_Z lenmessage
        ++ " characters)."
  | LogIdLogLoaded => "ID Log successfully loaded..."
  | LogRetrieved n =>
      "Retrieved " ++ Str.of_Z n
        ++ " preprints. Beginning search for new content..."
  | LogNewPreprint => "New preprint found!"
  | LogNotice preprintURL =>
      "NOTICE: Could not tweet preprint at " ++ preprintURL
        ++ ", please check manually."
  | LogSubmitting preprint_id => "Submitting " ++ preprint_id ++ " to Twitter..."
  | LogCommitting => "Committing ID to log..."
  | LogWrote id => "Wrote " ++ id ++ " to log"
  | LogSummary a t f =>
      "All preprints checked. Processed " ++ Str.of_Z a
        ++ " new preprints. Tweeted " ++ Str.of_Z t ++ ", failed to tweet "
        ++ Str.of_Z f ++ "."
  end.

Definition is_summary (e : log_entry) : bool :=
  match e with LogSummary _ _ _ => true | _ => false end.

(** The calls that leave the process, in the order they are made. *)
Inductive call : Type :=
| RequestsGet (url : string)
| UpdateWithMedia (filename media status : string)
| UpdateStatus (status : string)
| ApiPreprint (identifier : string)
| ApiFiles (identifier : string)
| Sleep (seconds : Z).

(** The calls to the posting API. *)
Definition is_post (c : call) : bool :=
  match c with
  | UpdateWithMedia _ _ _ | UpdateStatus _ => true
  | _ => false
  end.

(** The calls that fetch the detail or the files of one preprint. *)
Definition is_fetch (c : call) : bool :=
  match c with
  | ApiPreprint _ | ApiFiles _ => true
  | _ => false
  end.

Record world : Type := mkWorld {
  activity_log : list log_entry;   (* what write_log has written *)
  id_log_txt : string;             (* the content of id_log.txt *)
  temp_png : option string;        (* the content of temp.png, if it exists *)
  calls : list call                (* the outgoing calls made so far *)
}.

(** ** The monad of the effectful code *)

Definition M (A : Type) : Type := world -> result A * world.

Definition ret {A} (a : A) : M A := fun w => (Ok a, w).

Definition raise {A} (e : exn) : M A := fun w => (Raise e, w).

Definition bind {A B} (c : M A) (k : A -> M B) : M B :=
  fun w =>
    match c w with
    | (Ok a, w') => k a w'
    | (Raise e, w') => (Raise e, w')
    end.

Notation "x <- c ;; k" := (bind c (fun x => k))
  (at level 61, c at next level, right associativity).
Notation "c ;; k" := (bind c (fun _ => k))
  (at level 61, right associativity).

(** [write_log(message)] *)
Definition write_log (e : log_entry) : M unit :=
  fun w => (Ok tt, mkWorld (activity_log w ++ [e]) (id_log_txt w)
                           (temp_png w) (calls w)).

(** An outgoing call is recorded and answered by the environment, which
    sees the calls made before it. *)
Definition outgoing {A} (c : call) (answer : list call -> result A) : M A :=
  fun w => (answer (calls w),
            mkWorld (activity_log w) (id_log_txt w) (temp_png w)
                    (calls w ++ [c])).

(** [with open(filename, 'wb') as image: ... image.write(chunk)],
    [os.remove(filename)] and [os.path.getsize(filename)]; [filename] is
    ['temp.png'] throughout.  [read_temp] is the posting library opening
    the file it is asked to upload. *)
Definition write_temp (data : string) : M unit :=
  fun w => (Ok tt, mkWorld (activity_log w) (id_log_txt w) (Some data)
                           (calls w)).

Definition os_remove_temp : M unit :=
  fun w =>
    match temp_png w with
    | Some _ => (Ok tt, mkWorld (activity_log w) (id_log_txt w) None (calls w))
    | None => (Raise FileNotFoundError, w)
    end.

Definition os_path_getsize_temp : M Z :=
  fun w =>
    match temp_png w with
    | Some data => (Ok (Str.len data), w)
    | None => (Raise FileNotFoundError, w)
    end.

Definition read_temp : M string :=
  fun w =>
    match temp_png w with
    | Some data => (Ok data, w)
    | None => (Raise FileNotFoundError, w)
    end.

(** [with open('id_log.txt', 'a') as f: f.write(line)]; the line end is
    written as it is (the platform's line separator is ["\n"]). *)
Definition append_id_log (line : string) : M unit :=
  fun w => (Ok tt, mkWorld (activity_log w) (id_log_txt w ++ line)
                           (temp_png w) (calls w)).

Definition read_id_log_txt : M string :=
  fun w => (Ok (id_log_txt w), w).

(** ** The environment *)

(** The answer of [requests.get]. *)
Record response : Type := mkResponse {
  status_code : Z;
  content : string
}.

(** The full record of a preprint, as [api.preprint] returns it. *)
Record Preprint : Type := mkPreprint {
  p_id : string;            (* str(current_preprint["id"]) *)
  title : string;
  authors : list Author;
  doi : string;
  tags : list string
}.

(** How the two remote services answer.  Each answer may depend on the
    calls made so far, and each call may raise. *)
Record env : Type := mkEnv {
  requests_get : list call -> string -> result response;
  update_with_media : list call -> string -> string -> string -> result unit;
  update_status : list call -> string -> result unit;
  preprint : list call -> string -> result Preprint;
  files : list call -> string -> result files_json
}.

(** ** Reading [id_log.txt] *)

(** Reading a text file translates the line ends ["\r\n"] and ["\r"] to
    ["\n"] (Python's universal newlines). *)
Fixpoint universal_newlines (s : string) : string :=
  match s with
  | EmptyString => EmptyString
  | String c s' =>
      if Ascii.eqb c Str.CR then
        match s' with
        | String c' s'' =>
            if Ascii.eqb c' Str.LF
            then String Str.LF (universal_newlines s'')
            else String Str.LF (universal_newlines s')
        | EmptyString => String Str.LF EmptyString
        end
      else String c (universal_newlines s')
  end.

(** [list(f)]: the lines of the text, each with its line end; a last line
    without one is a line too. *)
Fixpoint file_lines (s : string) : list string :=
  match s with
  | EmptyString => []
  | String c s' =>
      if Ascii.eqb c Str.LF then String c EmptyString :: file_lines s'
      else
        match file_lines s' with
        | [] => [String c EmptyString]
        | line :: rest => String c line :: rest
        end
  end.

(** Lines 281-288: [id_log = list(f)], then [strip('\n')] on each entry. *)
Definition load_id_log (txt : string) : list string :=
  List.map (Str.strip Str.LF) (file_lines (universal_newlines txt)).

(** [preprint_id in id_log] *)
Definition in_id_log (preprint_id : string) (id_log : list string) : bool :=
  existsb (String.eqb preprint_id) id_log.

(** Lines 366-367: the line that commits one identifier. *)
Definition commit (preprint_id : string) : M unit :=
  append_id_log (preprint_id ++ String Str.LF EmptyString).

(** ** The poster and the main loop *)

Definition doiRootURL : string := "https://doi.org/".

(** A summary of the listing; [l['id']] is a JSON number or string. *)
Inductive json_id : Type :=
| IdNumber (z : Z)
| IdString (s : string).

(** [str(l['id'])] *)
Definition str_id (i : json_id) : string :=
  match i with
  | IdNumber z => Str.of_Z z
  | IdString s => s
  end.

Record Summary : Type := mkSummary { id : json_id }.

(** The three counters of the run. *)
Record counters : Type := mkCounters {
  preprints_added : Z;
  preprints_tweeted : Z;
  preprints_tweeted_FAILED : Z
}.

Section Bot.

Variable E : env.

Definition tweet_image (url message : string) (usetwitter : bool) : M unit :=
  include_image <-
    (if (0 <? Str.len url)%Z then
       request <- outgoing (RequestsGet url) (fun h => requests_get E h url) ;;
       if (status_code request =? 200)%Z then
         write_temp (content request) ;;
         ret true
       else
         write_log LogDownloadError ;;
         ret false
     else ret false) ;;
  (if usetwitter then
     if include_image then
       media <- read_temp ;;
       outgoing (UpdateWithMedia "temp.png" media message)
                (fun h => update_with_media E h "temp.png" media message) ;;
       os_remove_temp
     else
       outgoing (UpdateStatus message) (fun h => update_status E h message)
   else
     write_log LogOffline ;;
     if include_image then
       size <- os_path_getsize_temp ;;
       let filesize := (size / 1024)%Z in
       write_log (LogImageSize filesize)
     else ret tt) ;;
  let lenmessage := Str.len message in
  write_log (LogTweetSuccessful message lenmessage).

Variable usetwitter : bool.
Variable id_log : list string.

(** The body of the loop for the summary [l], lines 310-374. *)
Definition process (l : Summary) (c : counters) : M counters :=
  let preprint_id := str_id (id l) in
  if in_id_log preprint_id id_log then ret c
  else
    write_log LogNewPreprint ;;
    current_preprint <-
      outgoing (ApiPreprint preprint_id) (fun h => preprint E h preprint_id) ;;
    let preprint_title := title current_preprint in
    let authorData := authors current_preprint in
    let preprintURL := doiRootURL ++ doi current_preprint in
    fs <- outgoing (ApiFiles preprint_id) (fun h => files E h preprint_id) ;;
    let thumbnailURL := get_preprint_image_url fs in
    let tags := tags current_preprint in
    tweetText <-
      (fun w => (prepare_tweet preprint_title authorData preprintURL tags, w)) ;;
    c1 <-
      match tweetText with
      | Rejected =>
          write_log (LogNotice preprintURL) ;;
          ret (mkCounters (preprints_added c) (preprints_tweeted c)
                          (preprints_tweeted_FAILED c + 1))
      | Text t =>
          write_log (LogSubmitting preprint_id) ;;
          tweet_image thumbnailURL t usetwitter ;;
          ret (mkCounters (preprints_added c) (preprints_tweeted c + 1)
                          (preprints_tweeted_FAILED c))
      end ;;
    write_log LogCommitting ;;
    commit preprint_id ;;
    write_log (LogWrote (p_id current_preprint)) ;;
    let c2 := mkCounters (preprints_added c1 + 1) (preprints_tweeted c1)
                         (preprints_tweeted_FAILED c1) in
    (if usetwitter then outgoing (Sleep 1800) (fun _ => Ok tt) else ret tt) ;;
    ret c2.

(** [for i in range(n): l = next(doc); ...]: [doc] is what the generator
    has still to yield; [next] on an exhausted generator raises
    [StopIteration]. *)
Fixpoint loop (n : nat) (doc : list Summary) (c : counters) : M counters :=
  match n with
  | O => ret c
  | S n' =>
      match doc with
      | [] => raise StopIteration
      | l :: doc' => c' <- process l c ;; loop n' doc' c'
      end
  end.

End Bot.

(** Lines 281-377.  [sizeof_doc] is the value of [sys.getsizeof(doc)], the
    size in bytes of the generator object, which the interpreter fixes;
    [doc] is the sequence of summaries the generator yields. *)
Definition bot (E : env) (usetwitter : bool) (sizeof_doc : Z)
    (doc : list Summary) : M unit :=
  txt <- read_id_log_txt ;;
  let id_log := load_id_log txt in
  write_log LogIdLogLoaded ;;
  let numberPreprints := sizeof_doc in
  write_log (LogRetrieved numberPreprints) ;;
  c <- loop E usetwitter id_log (Z.to_nat numberPreprints) doc
         (mkCounters 0 0 0) ;;
  write_log (LogSummary (preprints_added c) (preprints_tweeted c)
                        (preprints_tweeted_FAILED c)).

(** ** Some concrete worlds and environments *)

Module Scenario.

(** A fresh start: nothing logged, an empty [id_log.txt], no [temp.png],
    no call made. *)
Definition fresh : world := mkWorld [] EmptyString None [].

(** No service can be reached: every call raises. *)
Definition unreachable : env :=
  mkEnv (fun _ _ => Raise ConnectionError)
        (fun _ _ _ _ => Raise TweepError)
        (fun _ _ => Raise TweepError)
        (fun _ _ => Raise HTTPError)
        (fun _ _ => Raise HTTPError).

Definition article : Preprint :=
  mkPreprint "12345" "A Study of X"
    [mkAuthor "A. Smith"; mkAuthor "B. Jones"] "10.1/abc"
    ["Organic Chemistry"; "Catalysis"].

Definition article_files : files_json :=
  FilesList [mkFile "fig1.svg" false "https://files.example/1";
             mkFile "fig2.PNG" false "https://files.example/2"].

(** Images download and the repository answers, but the posting API
    refuses every post. *)
Definition posting_fails : env :=
  mkEnv (fun _ _ => Ok (mkResponse 200 "PNGDATA"))
        (fun _ _ _ _ => Raise TweepError)
        (fun _ _ => Raise TweepError)
        (fun _ _ => Ok article)
        (fun _ _ => Ok article_files).

(** Every service answers. *)
Definition all_fine : env :=
  mkEnv (fun _ _ => Ok (mkResponse 200 "PNGDATA"))
        (fun _ _ _ _ => Ok tt)
        (fun _ _ => Ok tt)
        (fun _ _ => Ok article)
        (fun _ _ => Ok article_files).

Definition image_url : string := "https://files.example/2".

End Scenario.

(** ** The composition in the words of the specification *)

Module ComposerSpec.

Definition totalLimit : Z := 280.
Definition urlTokenWidth : Z := 23.

(** The characters left for title, author clause and hashtags. *)
Definition budget : Z := totalLimit - (urlTokenWidth + 2).

Definition two_line_breaks : string := String Str.LF (String Str.LF EmptyString).

(** The named author, with the co-author suffix when there are more
    authors than one. *)
Definition author_clause (a : Author) (authors : list Author) : string :=
  if (1 <? List.length authors)%nat
  then full_name a ++ " & co-workers"
  else full_name a.

Definition head (title : string) (a : Author) (authors : list Author)
  : string :=
  title ++ " by " ++ author_clause a authors.

(** A tag as a hashtag: lower-cased, blanks replaced by hyphens, ["#"]
    in front. *)
Definition hashtag (tag : string) : string :=
  "#" ++ Str.replace_char " "%char "-"%char (Str.lower tag).

(** The greedy choice: [used] is the length of the running text; a
    hashtag costs its length and the blank before it, is taken when the
    text stays within the budget and is skipped otherwise, and the tags
    after it are still tried. *)
Fixpoint select (used : Z) (tags : list string) : list string :=
  match tags with
  | [] => []
  | tag :: rest =>
      let h := hashtag tag in
      if (used + 1 + Str.len h <=? budget)%Z
      then h :: select (used + 1 + Str.len h) rest
      else select used rest
  end.

(** The chosen hashtags, each after one blank. *)
Fixpoint join (hs : list string) : string :=
  match hs with
  | [] => EmptyString
  | h :: rest => " " ++ h ++ join rest
  end.

(** Head and hashtags. *)
Definition body (title : string) (a : Author) (authors : list Author)
    (tags : list string) : string :=
  let h := head title a authors in
  h ++ join (select (Str.len h) tags).

Definition text (title : string) (a : Author) (authors : list Author)
    (url : string) (tags : list string) : string :=
  body title a authors tags ++ two_line_breaks ++ url.

End ComposerSpec.

(** ** The thumbnail selector in the words of the specification *)

Module ImageSpec.

(** [name] ends, whatever the case of its letters, in the extension
    [ext] (given in lower case). *)
Definition ends_with_ci (name ext : string) : Prop :=
  exists stem tail, name = stem ++ tail /\ Str.lower tail = ext.

(** A record that can serve as the thumbnail. *)
Definition qualifies (r : FileRecord) : Prop :=
  is_link_only r = false /\
  (ends_with_ci (name r) ".png" \/ ends_with_ci (name r) ".jpg").

End ImageSpec.

(** The test of lines 25-30 on one record. *)
Definition picks (r : FileRecord) : bool :=
  negb (is_link_only r) &&
  (Str.endswith (Str.lower (name r)) ".png"
   || Str.endswith (Str.lower (name r)) ".jpg").

(** ** The identifier log: well-formed identifiers and logs *)

Module IdLog.

Definition newline : string := String Str.LF EmptyString.

(** A text without line break: neither ["\n"] nor ["\r"] occurs. *)
Definition no_line_break (s : string) : Prop :=
  Str.mem Str.LF s = false /\ Str.mem Str.CR s = false.

(** A log whose last line is closed: empty, or ending in ["\n"]. *)
Definition closed (txt : string) : Prop :=
  txt = EmptyString \/ exists t, txt = t ++ newline.

End IdLog.

(** ** Observations of the world *)

(** Computations that leave an observation [f] of the world as it was. *)
Definition keeps {X A : Type} (f : world -> X) (c : M A) : Prop :=
  forall w, f (snd (c w)) = f w.

(** The run-summary lines of the log. *)
Definition summaries (w : world) : list log_entry :=
  filter is_summary (activity_log w).

(** ** The rest of the program *)

(** The strings of a list, one after the other. *)
Fixpoint flatten (l : list string) : string :=
  match l with
  | [] => EmptyString
  | x :: rest => x ++ flatten rest
  end.

(** The line that [commit] writes for an identifier, and the text that a
    run of commits writes. *)
Definition id_line (preprint_id : string) : string :=
  preprint_id ++ IdLog.newline.

Definition id_lines (ids : list string) : string :=
  flatten (List.map id_line ids).

(** Kinds of log lines and of calls. *)
Definition is_tweet_successful (e : log_entry) : bool :=
  match e with LogTweetSuccessful _ _ => true | _ => false end.

Definition is_download (c : call) : bool :=
  match c with RequestsGet _ => true | _ => false end.

Definition is_sleep (c : call) : bool :=
  match c with Sleep _ => true | _ => false end.

(** The calls made so far that are of the kind [p]. *)
Definition selected_calls (p : call -> bool) (w : world) : list call :=
  filter p (calls w).

(** The status text of a call to the posting API. *)
Definition status_of (c : call) : option string :=
  match c with
  | UpdateWithMedia _ _ status => Some status
  | UpdateStatus status => Some status
  | _ => None
  end.

(** *** The keys, lines 243-258 *)

Record keys : Type := mkKeys {
  twitKey : string;
  twitSecret : string;
  twitToken : string;
  twitToken_secret : string;
  chemRxiv_token : string
}.

(** [CRX_keys[i]] *)
Definition key_at (CRX_keys : list string) (i : nat) : result string :=
  match nth_error CRX_keys i with
  | Some k => Ok k
  | None => Raise IndexError
  end.

(** [CRX_keys = list(f)], [strip('\n')] on each entry, then the five
    entries by index; [txt] is the content of [CRX_keys.txt]. *)
Definition load_keys (txt : string) : result keys :=
  let CRX_keys :=
    List.map (Str.strip Str.LF) (file_lines (universal_newlines txt)) in
  match key_at CRX_keys 0 with
  | Raise e => Raise e
  | Ok k0 =>
  match key_at CRX_keys 1 with
  | Raise e => Raise e
  | Ok k1 =>
  match key_at CRX_keys 2 with
  | Raise e => Raise e
  | Ok k2 =>
  match key_at CRX_keys 3 with
  | Raise e => Raise e
  | Ok k3 =>
  match key_at CRX_keys 4 with
  | Raise e => Raise e
  | Ok k4 => Ok (mkKeys k0 k1 k2 k3 k4)
  end end end end end.

(** The end of a line of a text file, ["\n"] or ["\r\n"]. *)
Definition line_end (crlf : bool) : string :=
  if crlf then String Str.CR (String Str.LF EmptyString)
  else String Str.LF EmptyString.

(** A text made of lines, each given by its content and its line end. *)
Definition text_lines (ls : list (string * bool)) : string :=
  flatten (List.map (fun l => fst l ++ line_end (snd l)) ls).

(** What a last line without line end adds to the lines of a file: one
    line, or nothing when there is no such line. *)
Definition last_line (u : string) : list string :=
  if String.eqb u EmptyString then [] else [u].

(** *** The paging of [chemRxivAPI], lines 147-173 *)

Module Figshare.

Definition pagesize : Z := 100.

(** The decoded body of one answer: a list of items, or a single item
    that is no list. *)
Inductive body (A : Type) : Type :=
| Items (r : list A)
| Single (r : A).

Arguments Items {A} r.
Arguments Single {A} r.

(** How the draining of a generator ends: it returns, it raises, or (in
    the model only) the turns allowed are used up while it still runs. *)
Inductive ending : Type :=
| Returned
| Raised (e : exn)
| Running.

(** A generator drained to its end: the items it yields, the offsets it
    asks for, and how it ends. *)
Record drained (A : Type) : Type := mkDrained {
  yielded : list A;
  offsets : list Z;
  ended : ending
}.

Arguments mkDrained {A} yielded offsets ended.
Arguments yielded {A} d.
Arguments offsets {A} d.
Arguments ended {A} d.

(** [query_generator], started at offset [n] and followed for at most
    [turns] turns of its [while True].  [server n] is the outcome of
    [self.request] with [limit = pagesize] and [offset = n], followed by
    [raise_for_status] and [json]. *)
Fixpoint query_generator {A : Type} (server : Z -> result (body A))
    (turns : nat) (n : Z) : drained A :=
  match turns with
  | O => mkDrained [] [] Running
  | S turns' =>
      match server n with
      | Raise e => mkDrained [] [n] (Raised e)
      | Ok (Single r) => mkDrained [r] [n] Returned
      | Ok (Items r) =>
          if (Z.of_nat (List.length r) =? 0)%Z then mkDrained [] [n] Returned
          else
            let rest := query_generator server turns' (n + pagesize)%Z in
            mkDrained (r ++ yielded rest) (n :: offsets rest) (ended rest)
      end
  end.

(** [query_list]: [list(self.query_generator(...))]; [None] when the
    turns allowed do not reach the end of the generator. *)
Definition query_list {A : Type} (server : Z -> result (body A))
    (turns : nat) : option (result (list A)) :=
  let d := query_generator server turns 0 in
  match ended d with
  | Returned => Some (Ok (yielded d))
  | Raised e => Some (Raise e)
  | Running => None
  end.

(** A server that holds the pages [pages], none of them empty, from
    offset [n] on, one page every [pagesize], and answers [last] after
    them. *)
Fixpoint serves {A : Type} (server : Z -> result (body A)) (n : Z)
    (pages : list (list A)) (last : result (body A)) : Prop :=
  match pages with
  | [] => server n = last
  | page :: rest =>
      page <> [] /\ server n = Ok (Items page) /\
      serves server (n + pagesize)%Z rest last
  end.

(** What the last answer makes of the generator. *)
Definition closes {A : Type} (last : result (body A))
    : option (list A * ending) :=
  match last with
  | Raise e => Some ([], Raised e)
  | Ok (Single r) => Some ([r], Returned)
  | Ok (Items []) => Some ([], Returned)
  | Ok (Items (_ :: _)) => None
  end.

(** The offsets [n], [n + pagesize], ..., [count] of them. *)
Fixpoint offsets_from (n : Z) (count : nat) : list Z :=
  match count with
  | O => []
  | S count' => n :: offsets_from (n + pagesize)%Z count'
  end.

End Figshare.

(** *** Custom fields, lines 190-193 *)

Module CustomFields.

Record field : Type := mkField { name : string; value : string }.

(** A Python [dict] with string keys: the keys in the order of their
    first insertion, each with its latest value. *)
Definition dict : Type := list (string * string).

(** [d[k] = v] *)
Fixpoint dict_set (k v : string) (d : dict) : dict :=
  match d with
  | [] => [(k, v)]
  | (k', v') :: rest =>
      if String.eqb k' k then (k', v) :: rest
      else (k', v') :: dict_set k v rest
  end.

(** [d[k]], which raises [KeyError] when [k] is no key: [None] here. *)
Fixpoint dict_get (k : string) (d : dict) : option string :=
  match d with
  | [] => None
  | (k', v') :: rest => if String.eqb k' k then Some v' else dict_get k rest
  end.

Definition dict_keys (d : dict) : list string := List.map fst d.

(** [{i['name']: i['value'] for i in doc['custom_fields']}] *)
Definition custom_fields_as_dict (custom_fields : list field) : dict :=
  fold_left (fun d i => dict_set (name i) (value i) d) custom_fields [].

End CustomFields.

(** *** One more environment *)

Module ScenarioLong.

(** An article whose title alone is longer than a message may be. *)
Definition long_article : Preprint :=
  mkPreprint "777"
    "xxxxxxxxxxxxxxxxxxxxxxxxxxxxxxxxxxxxxxxxxxxxxxxxxxxxxxxxxxxxxxxxxxxxxxxxxxxxxxxxxxxxxxxxxxxxxxxxxxxxxxxxxxxxxxxxxxxxxxxxxxxxxxxxxxxxxxxxxxxxxxxxxxxxxxxxxxxxxxxxxxxxxxxxxxxxxxxxxxxxxxxxxxxxxxxxxxxxxxxxxxxxxxxxxxxxxxxxxxxxxxxxxxxxxxxxxxxxxxxxxxxxxxxxxxxx"
    [mkAuthor "B. Jones"] "10.1/long" ["Catalysis"].

(** Every service answers, and the repository knows one article, the
    long one. *)
Definition env_long : env :=
  mkEnv (fun _ _ => Ok (mkResponse 200 "PNGDATA"))
        (fun _ _ _ _ => Ok tt)
        (fun _ _ => Ok tt)
        (fun _ _ => Ok long_article)
        (fun _ _ => Ok Scenario.article_files).

End ScenarioLong.

(** ** Facts on strings *)

Module StrFacts.

Lemma app_assoc (a b c : string) : (a ++ b) ++ c = a ++ (b ++ c).
Proof.
  induction a as [|x a IH]; simpl; [reflexivity | now rewrite IH].
Qed.

Lemma app_nil_r (a : string) : a ++ EmptyString = a.
Proof.
  induction a as [|x a IH]; simpl; [reflexivity | now rewrite IH].
Qed.

Lemma length_app (a b : string) :
  String.length (a ++ b) = (String.length a + String.length b)%nat.
Proof.
  induction a as [|x a IH]; simpl; [reflexivity | now rewrite IH].
Qed.

Lemma len_app (a b : string) : Str.len (a ++ b) = (Str.len a + Str.len b)%Z.
Proof. unfold Str.len. rewrite length_app. lia. Qed.

Lemma len_nonneg (a : string) : (0 <= Str.len a)%Z.
Proof. unfold Str.len. lia. Qed.

Lemma len_cons (c : ascii) (a : string) :
  Str.len (String c a) = (1 + Str.len a)%Z.
Proof. unfold Str.len. simpl String.length. lia. Qed.

End StrFacts.

(** ** The composer: auxiliary facts *)

Lemma last_author_app (front : list Author) (a : Author) :
  last_author (front ++ [a])%list = Ok a.
Proof. unfold last_author. now rewrite rev_app_distr. Qed.

Lemma last_author_ok (authors : list Author) (a : Author) :
  last_author authors = Ok a -> exists front, authors = (front ++ [a])%list.
Proof.
  unfold last_author. intros H.
  destruct (rev authors) as [|x r] eqn:Hr; [discriminate|].
  injection H as ->.
  exists (rev r). rewrite <- (rev_involutive authors), Hr. reflexivity.
Qed.

Lemma last_author_nonempty (authors : list Author) :
  authors <> [] -> exists a, last_author authors = Ok a.
Proof.
  intros Hne. destruct (exists_last Hne) as [front [a ->]].
  exists a. apply last_author_app.
Qed.

Lemma hashtag_of_spec (tag : string) :
  hashtag_of tag = " " ++ ComposerSpec.hashtag tag.
Proof. reflexivity. Qed.

(** The loop over the tags is the greedy choice of the specification. *)
Lemma fold_add_hashtag (tags : list string) (acc : string) :
  fold_left add_hashtag tags acc
  = acc ++ ComposerSpec.join (ComposerSpec.select (Str.len acc) tags).
Proof.
  revert acc. induction tags as [|tag rest IH]; intros acc; simpl.
  - now rewrite StrFacts.app_nil_r.
  - unfold add_hashtag at 2. rewrite hashtag_of_spec.
    rewrite StrFacts.len_app. change (Str.len " ") with 1%Z.
    replace (Str.len acc + (1 + Str.len (ComposerSpec.hashtag tag)))%Z
      with (Str.len acc + 1 + Str.len (ComposerSpec.hashtag tag))%Z by lia.
    change 255%Z with ComposerSpec.budget.
    destruct (Str.len acc + 1 + Str.len (ComposerSpec.hashtag tag)
              <=? ComposerSpec.budget)%Z eqn:Hfit.
    + rewrite IH. rewrite !StrFacts.len_app. change (Str.len " ") with 1%Z.
      replace (Str.len acc + (1 + Str.len (ComposerSpec.hashtag tag)))%Z
        with (Str.len acc + 1 + Str.len (ComposerSpec.hashtag tag))%Z by lia.
      simpl ComposerSpec.join. now rewrite !StrFacts.app_assoc.
    + apply IH.
Qed.

(** The text of lines 74-88 is the head of the specification. *)
Lemma head_text (title : string) (a : Author) (authors : list Author) :
  (title ++ " by ") ++
    (if (1 <? Z.of_nat (List.length authors))%Z
     then full_name a ++ " & co-workers" else full_name a)
  = ComposerSpec.head title a authors.
Proof.
  unfold ComposerSpec.head, ComposerSpec.author_clause.
  rewrite StrFacts.app_assoc.
  destruct (1 <? Z.of_nat (List.length authors))%Z eqn:Hz;
    destruct (1 <? List.length authors)%nat eqn:Hn; try reflexivity.
  - apply Z.ltb_lt in Hz. apply Nat.ltb_ge in Hn. lia.
  - apply Z.ltb_ge in Hz. apply Nat.ltb_lt in Hn. lia.
Qed.

(** What [prepare_tweet] does once the last author is known. *)
Lemma prepare_tweet_unfold (title : string) (authors : list Author)
    (url : string) (tags : list string) (a : Author) :
  last_author authors = Ok a ->
  prepare_tweet title authors url tags
  = let full := ComposerSpec.text title a authors url tags in
    if (280 <? realtweetlength full url)%Z then Ok Rejected else Ok (Text full).
Proof.
  intros Ha. unfold prepare_tweet. rewrite Ha. cbv zeta.
  rewrite head_text, fold_add_hashtag. reflexivity.
Qed.

(** The counted length of an assembled text: the characters before the
    URL, the two line breaks among them, and 23 for the URL. *)
Lemma realtweetlength_text (body url : string) :
  realtweetlength (body ++ ComposerSpec.two_line_breaks ++ url) url
  = (Str.len body + 2 + 23)%Z.
Proof.
  unfold realtweetlength. rewrite !StrFacts.len_app.
  change (Str.len ComposerSpec.two_line_breaks) with 2%Z. lia.
Qed.

Lemma len_join_cons (h : string) (rest : list string) :
  Str.len (ComposerSpec.join (h :: rest))
  = (1 + Str.len h + Str.len (ComposerSpec.join rest))%Z.
Proof.
  simpl ComposerSpec.join. rewrite StrFacts.len_cons, StrFacts.len_app. lia.
Qed.

(** Once the text is over the budget no hashtag is taken. *)
Lemma select_over_budget (tags : list string) (used : Z) :
  (ComposerSpec.budget < used)%Z -> ComposerSpec.select used tags = [].
Proof.
  intros Hover. induction tags as [|tag rest IH]; [reflexivity|].
  simpl. pose proof (StrFacts.len_nonneg (ComposerSpec.hashtag tag)) as Hh.
  destruct (used + 1 + Str.len (ComposerSpec.hashtag tag)
            <=? ComposerSpec.budget)%Z eqn:Hfit; [|exact IH].
  apply Z.leb_le in Hfit. lia.
Qed.

(** Within the budget the hashtags never lead out of it. *)
Lemma select_within_budget (tags : list string) :
  forall used, (used <= ComposerSpec.budget)%Z ->
    (used + Str.len (ComposerSpec.join (ComposerSpec.select used tags))
     <= ComposerSpec.budget)%Z.
Proof.
  induction tags as [|tag rest IH]; intros used Hused.
  - simpl. unfold Str.len. simpl. lia.
  - simpl ComposerSpec.select.
    destruct (used + 1 + Str.len (ComposerSpec.hashtag tag)
              <=? ComposerSpec.budget)%Z eqn:Hfit.
    + apply Z.leb_le in Hfit. rewrite len_join_cons.
      specialize (IH _ Hfit). lia.
    + now apply IH.
Qed.

Lemma len_head (title : string) (a : Author) (authors : list Author) :
  Str.len (ComposerSpec.head title a authors)
  = (Str.len title + 4 + Str.len (full_name a)
     + (if (1 <? List.length authors)%nat then 13 else 0))%Z.
Proof.
  unfold ComposerSpec.head, ComposerSpec.author_clause.
  destruct (1 <? List.length authors)%nat;
    rewrite !StrFacts.len_app;
    [change (Str.len " & co-workers") with 13%Z|];
    change (Str.len " by ") with 4%Z; lia.
Qed.

(** The length of the body: the head alone when the head is over the
    budget, and within the budget otherwise. *)
Lemma len_body (title : string) (a : Author) (authors : list Author)
    (tags : list string) :
  let h := Str.len (ComposerSpec.head title a authors) in
  let b := Str.len (ComposerSpec.body title a authors tags) in
  ((255 < h)%Z /\ b = h) \/ ((h <= 255)%Z /\ (b <= 255)%Z).
Proof.
  cbv zeta. unfold ComposerSpec.body.
  destruct (Z.lt_ge_cases 255 (Str.len (ComposerSpec.head title a authors)))
    as [Hover | Hfit].
  - left. split; [exact Hover|].
    rewrite select_over_budget by exact Hover.
    simpl ComposerSpec.join. now rewrite StrFacts.app_nil_r.
  - right. split; [exact Hfit|]. rewrite StrFacts.len_app.
    apply (select_within_budget tags _ Hfit).
Qed.

(** ** The composer: theorems *)

Example prepare_tweet_study :
  prepare_tweet "A Study of X"
    [mkAuthor "A. Smith"; mkAuthor "B. Jones"]
    "https://doi.org/10.1/abc" ["Organic Chemistry"; "Catalysis"]
  = Ok (Text ("A Study of X by B. Jones & co-workers #organic-chemistry #catalysis"
              ++ String Str.LF (String Str.LF EmptyString) ++ "https://doi.org/10.1/abc")).
Proof. reflexivity. Qed.

(** C1: for a non-empty author list, a text that [prepare_tweet] returns
    has a counted length (its length without the URL string, the two line
    breaks included, plus 23 for the URL) of at most 280; and when the
    counted length of the assembled text exceeds 280 the result is
    [Rejected], not a text. *)
Theorem prepare_tweet_counted_length (title : string) (authors : list Author)
    (url : string) (tags : list string) :
  authors <> [] ->
  (forall t, prepare_tweet title authors url tags = Ok (Text t) ->
     (realtweetlength t url <= 280)%Z) /\
  exists a, last_author authors = Ok a /\
    let full := ComposerSpec.text title a authors url tags in
    realtweetlength full url
      = (Str.len (ComposerSpec.body title a authors tags) + 2 + 23)%Z /\
    ((280 < realtweetlength full url)%Z ->
       prepare_tweet title authors url tags = Ok Rejected) /\
    ((realtweetlength full url <= 280)%Z ->
       prepare_tweet title authors url tags = Ok (Text full)).
Proof.
  intros Hne. destruct (last_author_nonempty authors Hne) as [a Ha].
  pose proof (prepare_tweet_unfold title authors url tags a Ha) as Hp. cbv zeta in Hp.
  split.
  - intros t Ht. rewrite Hp in Ht.
    destruct (280 <? realtweetlength (ComposerSpec.text title a authors url tags) url)%Z
      eqn:Hlen; [discriminate|].
    injection Ht as <-. now apply Z.ltb_ge.
  - exists a. split; [exact Ha|]. cbv zeta. split; [|split].
    + apply realtweetlength_text.
    + intros Hlong. rewrite Hp. apply Z.ltb_lt in Hlong. now rewrite Hlong.
    + intros Hfit. rewrite Hp. apply Z.ltb_ge in Hfit. now rewrite Hfit.
Qed.

Lemma prepare_tweet_counted_length_witness :
  [mkAuthor "A. Smith"; mkAuthor "B. Jones"] <> [] /\
  (realtweetlength
     ("A Study of X by B. Jones & co-workers #organic-chemistry #catalysis"
        ++ ComposerSpec.two_line_breaks ++ "https://doi.org/10.1/abc")
     "https://doi.org/10.1/abc" <= 280)%Z.
Proof.
  assert (Hne : [mkAuthor "A. Smith"; mkAuthor "B. Jones"] <> [])
    by discriminate.
  split; [exact Hne|].
  apply (proj1 (prepare_tweet_counted_length "A Study of X" _
                  "https://doi.org/10.1/abc"
                  ["Organic Chemistry"; "Catalysis"] Hne)).
  reflexivity.
Defined.

(** C6: [prepare_tweet] accepts exactly the compositions whose head
    (title, [" by "], the full name of the last author, with
    [" & co-workers"] exactly when there is more than one author) is
    within the budget of 255 characters, and the accepted text is that
    head, then the hashtags chosen greedily within the budget (each tag
    lower-cased, blanks turned into hyphens, ["#"] in front, one blank
    before it; a tag that does not fit is skipped and the later ones are
    still tried), then two line breaks and the URL as it is. *)
Theorem prepare_tweet_text (title : string) (authors : list Author)
    (url : string) (tags : list string) (t : string) :
  prepare_tweet title authors url tags = Ok (Text t) <->
  exists front a,
    authors = (front ++ [a])%list /\
    (Str.len (ComposerSpec.head title a authors) <= ComposerSpec.budget)%Z /\
    t = ComposerSpec.text title a authors url tags.
Proof.
  change ComposerSpec.budget with 255%Z. split.
  - intros Ht.
    destruct (last_author authors) as [a|e] eqn:Ha.
    + destruct (last_author_ok authors a Ha) as [front Hfront].
      exists front, a. split; [exact Hfront|].
      rewrite (prepare_tweet_unfold title authors url tags a Ha) in Ht.
      cbv zeta in Ht. unfold ComposerSpec.text in Ht |- *.
      rewrite realtweetlength_text in Ht.
      pose proof (len_body title a authors tags) as Hb. cbv zeta in Hb.
      destruct (280 <? _)%Z eqn:Hlen in Ht; [discriminate|].
      apply Z.ltb_ge in Hlen. injection Ht as <-.
      split; [lia | reflexivity].
    + unfold prepare_tweet in Ht. rewrite Ha in Ht. discriminate.
  - intros (front & a & Hfront & Hhead & ->).
    assert (Ha : last_author authors = Ok a)
      by (rewrite Hfront; apply last_author_app).
    rewrite (prepare_tweet_unfold title authors url tags a Ha). cbv zeta.
    unfold ComposerSpec.text. rewrite realtweetlength_text.
    pose proof (len_body title a authors tags) as Hb. cbv zeta in Hb.
    destruct (280 <? _)%Z eqn:Hlen; [|reflexivity].
    apply Z.ltb_lt in Hlen. lia.
Qed.

(** A tag that does not fit is skipped and the next one is taken: the
    head has 250 characters, the hashtag of the first tag has 14, that of
    the second has 3. *)
Lemma prepare_tweet_text_witness :
  (exists front a,
     [mkAuthor "B"] = (front ++ [a])%list /\
     (Str.len (ComposerSpec.head "zzzzzzzzzzzzzzzzzzzzzzzzzzzzzzzzzzzzzzzzzzzzzzzzzzzzzzzzzzzzzzzzzzzzzzzzzzzzzzzzzzzzzzzzzzzzzzzzzzzzzzzzzzzzzzzzzzzzzzzzzzzzzzzzzzzzzzzzzzzzzzzzzzzzzzzzzzzzzzzzzzzzzzzzzzzzzzzzzzzzzzzzzzzzzzzzzzzzzzzzzzzzzzzzzzzzzzzzzzzzzzzzzzzzzzzzzzzzzzzzzzzzz" a [mkAuthor "B"])
      <= ComposerSpec.budget)%Z /\
     "zzzzzzzzzzzzzzzzzzzzzzzzzzzzzzzzzzzzzzzzzzzzzzzzzzzzzzzzzzzzzzzzzzzzzzzzzzzzzzzzzzzzzzzzzzzzzzzzzzzzzzzzzzzzzzzzzzzzzzzzzzzzzzzzzzzzzzzzzzzzzzzzzzzzzzzzzzzzzzzzzzzzzzzzzzzzzzzzzzzzzzzzzzzzzzzzzzzzzzzzzzzzzzzzzzzzzzzzzzzzzzzzzzzzzzzzzzzzzzzzzzzzz by B #x" ++ ComposerSpec.two_line_breaks
       ++ "https://doi.org/10.1/abc"
     = ComposerSpec.text "zzzzzzzzzzzzzzzzzzzzzzzzzzzzzzzzzzzzzzzzzzzzzzzzzzzzzzzzzzzzzzzzzzzzzzzzzzzzzzzzzzzzzzzzzzzzzzzzzzzzzzzzzzzzzzzzzzzzzzzzzzzzzzzzzzzzzzzzzzzzzzzzzzzzzzzzzzzzzzzzzzzzzzzzzzzzzzzzzzzzzzzzzzzzzzzzzzzzzzzzzzzzzzzzzzzzzzzzzzzzzzzzzzzzzzzzzzzzzzzzzzzzz" a [mkAuthor "B"]
         "https://doi.org/10.1/abc" ["abcdefghijkl"; "x"]) /\
  prepare_tweet "zzzzzzzzzzzzzzzzzzzzzzzzzzzzzzzzzzzzzzzzzzzzzzzzzzzzzzzzzzzzzzzzzzzzzzzzzzzzzzzzzzzzzzzzzzzzzzzzzzzzzzzzzzzzzzzzzzzzzzzzzzzzzzzzzzzzzzzzzzzzzzzzzzzzzzzzzzzzzzzzzzzzzzzzzzzzzzzzzzzzzzzzzzzzzzzzzzzzzzzzzzzzzzzzzzzzzzzzzzzzzzzzzzzzzzzzzzzzzzzzzzzzz" [mkAuthor "B"] "https://doi.org/10.1/abc"
    ["abcdefghijkl"; "x"]
  = Ok (Text ("zzzzzzzzzzzzzzzzzzzzzzzzzzzzzzzzzzzzzzzzzzzzzzzzzzzzzzzzzzzzzzzzzzzzzzzzzzzzzzzzzzzzzzzzzzzzzzzzzzzzzzzzzzzzzzzzzzzzzzzzzzzzzzzzzzzzzzzzzzzzzzzzzzzzzzzzzzzzzzzzzzzzzzzzzzzzzzzzzzzzzzzzzzzzzzzzzzzzzzzzzzzzzzzzzzzzzzzzzzzzzzzzzzzzzzzzzzzzzzzzzzzzz by B #x" ++ ComposerSpec.two_line_breaks
                ++ "https://doi.org/10.1/abc")).
Proof.
  assert (H : exists front a,
     [mkAuthor "B"] = (front ++ [a])%list /\
     (Str.len (ComposerSpec.head "zzzzzzzzzzzzzzzzzzzzzzzzzzzzzzzzzzzzzzzzzzzzzzzzzzzzzzzzzzzzzzzzzzzzzzzzzzzzzzzzzzzzzzzzzzzzzzzzzzzzzzzzzzzzzzzzzzzzzzzzzzzzzzzzzzzzzzzzzzzzzzzzzzzzzzzzzzzzzzzzzzzzzzzzzzzzzzzzzzzzzzzzzzzzzzzzzzzzzzzzzzzzzzzzzzzzzzzzzzzzzzzzzzzzzzzzzzzzzzzzzzzzz" a [mkAuthor "B"])
      <= ComposerSpec.budget)%Z /\
     "zzzzzzzzzzzzzzzzzzzzzzzzzzzzzzzzzzzzzzzzzzzzzzzzzzzzzzzzzzzzzzzzzzzzzzzzzzzzzzzzzzzzzzzzzzzzzzzzzzzzzzzzzzzzzzzzzzzzzzzzzzzzzzzzzzzzzzzzzzzzzzzzzzzzzzzzzzzzzzzzzzzzzzzzzzzzzzzzzzzzzzzzzzzzzzzzzzzzzzzzzzzzzzzzzzzzzzzzzzzzzzzzzzzzzzzzzzzzzzzzzzzzz by B #x" ++ ComposerSpec.two_line_breaks
       ++ "https://doi.org/10.1/abc"
     = ComposerSpec.text "zzzzzzzzzzzzzzzzzzzzzzzzzzzzzzzzzzzzzzzzzzzzzzzzzzzzzzzzzzzzzzzzzzzzzzzzzzzzzzzzzzzzzzzzzzzzzzzzzzzzzzzzzzzzzzzzzzzzzzzzzzzzzzzzzzzzzzzzzzzzzzzzzzzzzzzzzzzzzzzzzzzzzzzzzzzzzzzzzzzzzzzzzzzzzzzzzzzzzzzzzzzzzzzzzzzzzzzzzzzzzzzzzzzzzzzzzzzzzzzzzzzzz" a [mkAuthor "B"]
         "https://doi.org/10.1/abc" ["abcdefghijkl"; "x"]).
  { exists [], (mkAuthor "B").
    split; [reflexivity|]. split; [vm_compute; discriminate | reflexivity]. }
  split; [exact H|].
  exact (proj2 (prepare_tweet_text "zzzzzzzzzzzzzzzzzzzzzzzzzzzzzzzzzzzzzzzzzzzzzzzzzzzzzzzzzzzzzzzzzzzzzzzzzzzzzzzzzzzzzzzzzzzzzzzzzzzzzzzzzzzzzzzzzzzzzzzzzzzzzzzzzzzzzzzzzzzzzzzzzzzzzzzzzzzzzzzzzzzzzzzzzzzzzzzzzzzzzzzzzzzzzzzzzzzzzzzzzzzzzzzzzzzzzzzzzzzzzzzzzzzzzzzzzzzzzzzzzzzzz" [mkAuthor "B"]
                  "https://doi.org/10.1/abc" ["abcdefghijkl"; "x"]
                  ("zzzzzzzzzzzzzzzzzzzzzzzzzzzzzzzzzzzzzzzzzzzzzzzzzzzzzzzzzzzzzzzzzzzzzzzzzzzzzzzzzzzzzzzzzzzzzzzzzzzzzzzzzzzzzzzzzzzzzzzzzzzzzzzzzzzzzzzzzzzzzzzzzzzzzzzzzzzzzzzzzzzzzzzzzzzzzzzzzzzzzzzzzzzzzzzzzzzzzzzzzzzzzzzzzzzzzzzzzzzzzzzzzzzzzzzzzzzzzzzzzzzzz by B #x" ++ ComposerSpec.two_line_breaks
                     ++ "https://doi.org/10.1/abc")) H).
Defined.

(** C10: with no author [prepare_tweet] raises [IndexError] at
    [authors[-1]]; and whenever it returns [Rejected] there is a last
    author and the counted length of the assembled text exceeds 280. *)
Theorem prepare_tweet_no_authors :
  (forall title url tags, prepare_tweet title [] url tags = Raise IndexError) /\
  (forall title authors url tags,
     prepare_tweet title authors url tags = Ok Rejected ->
     authors <> [] /\
     exists a, last_author authors = Ok a /\
       (280 < realtweetlength
                (ComposerSpec.text title a authors url tags) url)%Z).
Proof.
  split; [reflexivity|].
  intros title authors url tags Hr.
  destruct (last_author authors) as [a|e] eqn:Ha.
  - split.
    + intros ->. discriminate.
    + exists a. split; [reflexivity|].
      rewrite (prepare_tweet_unfold title authors url tags a Ha) in Hr. cbv zeta in Hr.
      destruct (280 <? _)%Z eqn:Hlen in Hr; [|discriminate].
      now apply Z.ltb_lt.
  - unfold prepare_tweet in Hr. rewrite Ha in Hr. discriminate.
Qed.

Lemma prepare_tweet_no_authors_witness :
  prepare_tweet
    "xxxxxxxxxxxxxxxxxxxxxxxxxxxxxxxxxxxxxxxxxxxxxxxxxxxxxxxxxxxxxxxxxxxxxxxxxxxxxxxxxxxxxxxxxxxxxxxxxxxxxxxxxxxxxxxxxxxxxxxxxxxxxxxxxxxxxxxxxxxxxxxxxxxxxxxxxxxxxxxxxxxxxxxxxxxxxxxxxxxxxxxxxxxxxxxxxxxxxxxxxxxxxxxxxxxxxxxxxxxxxxxxxxxxxxxxxxxxxxxxxxxxxxxxxxxx"
    [mkAuthor "B. Jones"] "https://doi.org/10.1/abc" ["Catalysis"]
  = Ok Rejected /\
  [mkAuthor "B. Jones"] <> [].
Proof.
  split; [reflexivity|].
  apply (proj2 prepare_tweet_no_authors
    "xxxxxxxxxxxxxxxxxxxxxxxxxxxxxxxxxxxxxxxxxxxxxxxxxxxxxxxxxxxxxxxxxxxxxxxxxxxxxxxxxxxxxxxxxxxxxxxxxxxxxxxxxxxxxxxxxxxxxxxxxxxxxxxxxxxxxxxxxxxxxxxxxxxxxxxxxxxxxxxxxxxxxxxxxxxxxxxxxxxxxxxxxxxxxxxxxxxxxxxxxxxxxxxxxxxxxxxxxxxxxxxxxxxxxxxxxxxxxxxxxxxxxxxxxxxx"
    [mkAuthor "B. Jones"] "https://doi.org/10.1/abc" ["Catalysis"]).
  reflexivity.
Defined.

(** ** The thumbnail selector: theorem *)

Lemma endswith_iff (s suffix : string) :
  Str.endswith s suffix = true <-> exists stem, s = stem ++ suffix.
Proof.
  induction s as [|c s IH].
  - change (Str.endswith EmptyString suffix) with (String.eqb EmptyString suffix || false).
    rewrite orb_false_r, String.eqb_eq. split.
    + intros <-. now exists EmptyString.
    + intros [stem H]. destruct stem; simpl in H; [exact H | discriminate].
  - change (Str.endswith (String c s) suffix)
      with (String.eqb (String c s) suffix || Str.endswith s suffix).
    rewrite orb_true_iff, String.eqb_eq, IH. split.
    + intros [<- | [stem ->]]; [now exists EmptyString | now exists (String c stem)].
    + intros [[|d stem] H]; simpl in H.
      * now left.
      * right. exists stem. now injection H.
Qed.

Lemma str_map_app (f : ascii -> ascii) (a b : string) :
  Str.map f (a ++ b) = Str.map f a ++ Str.map f b.
Proof. induction a as [|x a IH]; simpl; [reflexivity | now rewrite IH]. Qed.

Lemma map_app_inv (f : ascii -> ascii) (a b s : string) :
  Str.map f s = a ++ b ->
  exists s1 s2, s = s1 ++ s2 /\ Str.map f s1 = a /\ Str.map f s2 = b.
Proof.
  revert s. induction a as [|x a IH]; intros s H; simpl in H.
  - exists EmptyString, s. repeat split. exact H.
  - destruct s as [|c s]; simpl in H; [discriminate|].
    injection H as Hc Hs. destruct (IH s Hs) as (s1 & s2 & -> & H1 & H2).
    exists (String c s1), s2. simpl. now rewrite Hc, H1, H2.
Qed.

Lemma endswith_lower_iff (name ext : string) :
  Str.endswith (Str.lower name) ext = true <-> ImageSpec.ends_with_ci name ext.
Proof.
  rewrite endswith_iff. unfold ImageSpec.ends_with_ci, Str.lower. split.
  - intros [stem H]. destruct (map_app_inv _ _ _ _ H) as (s1 & s2 & -> & _ & H2).
    now exists s1, s2.
  - intros (stem & tail & -> & <-). exists (Str.map Str.lower_char stem).
    apply str_map_app.
Qed.

Lemma picks_iff (r : FileRecord) : picks r = true <-> ImageSpec.qualifies r.
Proof.
  unfold picks, ImageSpec.qualifies.
  rewrite andb_true_iff, orb_true_iff, negb_true_iff, !endswith_lower_iff.
  reflexivity.
Qed.

Lemma scan_files_step (r : FileRecord) (rest : list FileRecord) :
  scan_files (r :: rest) = if picks r then download_url r else scan_files rest.
Proof. unfold picks. simpl. now destruct (is_link_only r). Qed.

(** C5: a value that is not a list gives the empty string; on a list the
    result is the download URL of the first record, in the order of the
    list, that is not link-only and whose name ends in [.png] or [.jpg]
    whatever the case of its letters, and the empty string when there is
    no such record; on [fig1.svg], [fig2.PNG] it is the URL of
    [fig2.PNG]. *)
Theorem get_preprint_image_url_first_match :
  (get_preprint_image_url FilesNull = EmptyString /\
   (forall b, get_preprint_image_url (FilesBool b) = EmptyString) /\
   (forall z, get_preprint_image_url (FilesNumber z) = EmptyString) /\
   (forall s, get_preprint_image_url (FilesString s) = EmptyString) /\
   (forall fields, get_preprint_image_url (FilesObject fields) = EmptyString)) /\
  (forall l : list FileRecord,
     (exists pre r post,
        l = (pre ++ r :: post)%list /\
        Forall (fun x => ~ ImageSpec.qualifies x) pre /\
        ImageSpec.qualifies r /\
        get_preprint_image_url (FilesList l) = download_url r)
     \/
     (Forall (fun x => ~ ImageSpec.qualifies x) l /\
      get_preprint_image_url (FilesList l) = EmptyString)) /\
  (forall url1 url2,
     get_preprint_image_url
       (FilesList [mkFile "fig1.svg" false url1; mkFile "fig2.PNG" false url2])
     = url2).
Proof.
  split; [repeat split|split]; [|reflexivity].
  intros l. simpl. induction l as [|r rest IH].
  - right. split; [constructor | reflexivity].
  - rewrite scan_files_step. destruct (picks r) eqn:Hr.
    + left. exists [], r, rest. repeat split; [constructor | | ].
      * now apply picks_iff.
      * now apply picks_iff.
    + assert (Hnot : ~ ImageSpec.qualifies r).
      { intros Hq. apply picks_iff in Hq. congruence. }
      destruct IH as [(pre & x & post & -> & Hpre & Hx & Hres) | [Hall Hres]].
      * left. exists (r :: pre), x, post.
        repeat split; [now constructor | apply Hx | apply Hx | exact Hres].
      * right. split; [now constructor | exact Hres].
Qed.

(** ** The poster *)

Ltac run_poster :=
  unfold tweet_image, bind, outgoing, write_temp, write_log, ret,
    read_temp, os_remove_temp, os_path_getsize_temp; cbn.

(** A failed download that the code recovers from: a status other than
    200 is logged and the message goes out without image. *)
Lemma tweet_image_bad_status (E : env) (url message : string) (w : world)
    (r : response) :
  (0 < Str.len url)%Z ->
  requests_get E (calls w) url = Ok r ->
  status_code r <> 200%Z ->
  (update_status E (calls w ++ [RequestsGet url]) message = Ok tt ->
   tweet_image E url message true w
   = (Ok tt,
      mkWorld (activity_log w
                 ++ [LogDownloadError;
                     LogTweetSuccessful message (Str.len message)])
              (id_log_txt w) (temp_png w)
              (calls w ++ [RequestsGet url; UpdateStatus message]))) /\
  tweet_image E url message false w
  = (Ok tt,
     mkWorld (activity_log w
                ++ [LogDownloadError; LogOffline;
                    LogTweetSuccessful message (Str.len message)])
             (id_log_txt w) (temp_png w) (calls w ++ [RequestsGet url])).
Proof.
  intros Hurl Hget Hstatus.
  apply Z.ltb_lt in Hurl. apply Z.eqb_neq in Hstatus.
  split; [intros Hpost|]; run_poster; rewrite Hurl, Hget; cbn;
    rewrite Hstatus; cbn; [rewrite Hpost; cbn|];
    now rewrite <- !app_assoc.
Qed.

(** C4, at the failing input: when [requests.get] raises for a non-empty
    URL, [tweet_image] raises the same exception; nothing is logged and
    nothing is posted. *)
Theorem tweet_image_transport_error (E : env) (url message : string)
    (usetwitter : bool) (w : world) (e : exn) :
  (0 < Str.len url)%Z ->
  requests_get E (calls w) url = Raise e ->
  tweet_image E url message usetwitter w
  = (Raise e,
     mkWorld (activity_log w) (id_log_txt w) (temp_png w)
             (calls w ++ [RequestsGet url])).
Proof.
  intros Hurl Hget. apply Z.ltb_lt in Hurl.
  run_poster. now rewrite Hurl, Hget.
Qed.

(** C7: without the posting API ([usetwitter] false) no call to it is
    made; the log gets the offline notice, the size of the image when one
    was fetched, and the message with its length, whenever [requests.get]
    answers; when [requests.get] raises, the exception leaves
    [tweet_image] and the log gets nothing. *)
Theorem tweet_image_offline (E : env) (url message : string) (w : world) :
  let r := tweet_image E url message false w in
  filter is_post (calls (snd r)) = filter is_post (calls w) /\
  match (if (0 <? Str.len url)%Z
         then Some (requests_get E (calls w) url) else None) with
  | None =>
      fst r = Ok tt /\
      activity_log (snd r)
      = (activity_log w
           ++ [LogOffline; LogTweetSuccessful message (Str.len message)])%list
  | Some (Ok resp) =>
      fst r = Ok tt /\
      activity_log (snd r)
      = (activity_log w
           ++ (if (status_code resp =? 200)%Z
               then [LogOffline;
                     LogImageSize (Str.len (content resp) / 1024);
                     LogTweetSuccessful message (Str.len message)]
               else [LogDownloadError; LogOffline;
                     LogTweetSuccessful message (Str.len message)]))%list
  | Some (Raise e) =>
      fst r = Raise e /\ activity_log (snd r) = activity_log w
  end.
Proof.
  run_poster.
  destruct (0 <? Str.len url)%Z; cbn.
  - destruct (requests_get E (calls w) url) as [resp|e]; cbn.
    + destruct (status_code resp =? 200)%Z; cbn;
        rewrite filter_app, <- !app_assoc; cbn; now rewrite app_nil_r.
    + rewrite filter_app; cbn. now rewrite app_nil_r.
  - now rewrite <- !app_assoc.
Qed.

(** C9, as the code has it: in live mode with the image fetched, message
    and image go out in one call, the only call to the posting API; when
    that call returns, [temp.png] is removed; when it raises, the
    exception leaves [tweet_image] and [temp.png] stays. *)
Theorem tweet_image_with_media (E : env) (url message : string) (w : world)
    (resp : response) :
  (0 < Str.len url)%Z ->
  requests_get E (calls w) url = Ok resp ->
  status_code resp = 200%Z ->
  let r := tweet_image E url message true w in
  calls (snd r)
  = (calls w ++ [RequestsGet url;
                 UpdateWithMedia "temp.png" (content resp) message])%list /\
  match update_with_media E (calls w ++ [RequestsGet url]) "temp.png"
          (content resp) message with
  | Ok _ =>
      fst r = Ok tt /\ temp_png (snd r) = None /\
      activity_log (snd r)
      = (activity_log w
           ++ [LogTweetSuccessful message (Str.len message)])%list
  | Raise e =>
      fst r = Raise e /\ temp_png (snd r) = Some (content resp) /\
      activity_log (snd r) = activity_log w
  end.
Proof.
  intros Hurl Hget Hstatus. apply Z.ltb_lt in Hurl.
  apply Z.eqb_eq in Hstatus.
  run_poster. rewrite Hurl, Hget. cbn. rewrite Hstatus. cbn.
  destruct (update_with_media E (calls w ++ [RequestsGet url]) "temp.png"
              (content resp) message) as [u|e]; cbn;
    now rewrite <- !app_assoc.
Qed.

Lemma tweet_image_transport_error_witness :
  (0 < Str.len Scenario.image_url)%Z /\
  requests_get Scenario.unreachable (calls Scenario.fresh) Scenario.image_url
  = Raise ConnectionError /\
  tweet_image Scenario.unreachable Scenario.image_url "A Study of X" true
    Scenario.fresh
  = (Raise ConnectionError,
     mkWorld [] EmptyString None [RequestsGet Scenario.image_url]).
Proof.
  split; [reflexivity|]. split; [reflexivity|].
  apply (tweet_image_transport_error Scenario.unreachable Scenario.image_url
           "A Study of X" true Scenario.fresh ConnectionError);
    reflexivity.
Defined.

(** C9, against the claim as stated: the image is fetched, the one call
    that posts it raises, and [temp.png] is still there afterwards. *)
Lemma tweet_image_with_media_keeps_file :
  let r := tweet_image Scenario.posting_fails Scenario.image_url
             "A Study of X" true Scenario.fresh in
  fst r = Raise TweepError /\
  calls (snd r)
  = [RequestsGet Scenario.image_url;
     UpdateWithMedia "temp.png" "PNGDATA" "A Study of X"] /\
  temp_png (snd r) = Some "PNGDATA" /\
  temp_png (snd r) <> None.
Proof. cbv zeta. repeat split. discriminate. Qed.

Lemma tweet_image_with_media_witness :
  (0 < Str.len Scenario.image_url)%Z /\
  requests_get Scenario.all_fine (calls Scenario.fresh) Scenario.image_url
  = Ok (mkResponse 200 "PNGDATA") /\
  calls (snd (tweet_image Scenario.all_fine Scenario.image_url
                "A Study of X" true Scenario.fresh))
  = [RequestsGet Scenario.image_url;
     UpdateWithMedia "temp.png" "PNGDATA" "A Study of X"].
Proof.
  split; [reflexivity|]. split; [reflexivity|].
  apply (tweet_image_with_media Scenario.all_fine Scenario.image_url
           "A Study of X" Scenario.fresh (mkResponse 200 "PNGDATA"));
    reflexivity.
Defined.

(** ** The identifier log: theorems *)

Module IdLogFacts.

Import IdLog.

Lemma mem_cons (c a : ascii) (s : string) :
  Str.mem c (String a s) = false ->
  Ascii.eqb a c = false /\ Str.mem c s = false.
Proof. simpl. now rewrite orb_false_iff. Qed.

(** Translation of line ends never looks back across a ["\n"]. *)
Lemma universal_newlines_cut (n : nat) :
  forall a b, (String.length a <= n)%nat ->
    exists t,
      universal_newlines (a ++ String Str.LF b)
      = t ++ String Str.LF (universal_newlines b).
Proof.
  induction n as [|n IH]; intros a b Hlen.
  - destruct a; [|simpl in Hlen; lia]. now exists EmptyString.
  - destruct a as [|c a]; [now exists EmptyString|].
    simpl in Hlen. simpl.
    destruct (Ascii.eqb c Str.CR) eqn:Hc.
    + destruct a as [|c' a]; simpl.
      * now exists EmptyString.
      * destruct (Ascii.eqb c' Str.LF).
        -- destruct (IH a b) as [t Ht]; [simpl in Hlen; lia|].
           exists (String Str.LF t). simpl. now rewrite Ht.
        -- destruct (IH (String c' a) b) as [t Ht]; [lia|].
           exists (String Str.LF t). simpl in Ht |- *. now rewrite Ht.
    + destruct (IH a b) as [t Ht]; [lia|].
      exists (String c t). simpl. now rewrite Ht.
Qed.

Lemma universal_newlines_id (s : string) :
  Str.mem Str.CR s = false -> universal_newlines s = s.
Proof.
  induction s as [|c s IH]; intros H; [reflexivity|].
  apply mem_cons in H as [Hc Hs]. simpl. rewrite Hc. now rewrite IH.
Qed.

Lemma mem_app_newline (s : string) :
  Str.mem Str.CR s = false -> Str.mem Str.CR (s ++ newline) = false.
Proof.
  induction s as [|c s IH]; intros H; [reflexivity|].
  apply mem_cons in H as [Hc Hs]. simpl. rewrite Hc. now apply IH.
Qed.

Lemma file_lines_closed_nonempty (t : string) :
  file_lines (t ++ newline) <> [].
Proof.
  induction t as [|c t IH]; simpl; [discriminate|].
  destruct (Ascii.eqb c Str.LF); [discriminate|].
  destruct (file_lines (t ++ newline)); [contradiction|discriminate].
Qed.

(** The lines after a ["\n"] do not depend on what came before it. *)
Lemma file_lines_cut (t s : string) :
  file_lines (t ++ String Str.LF s)
  = (file_lines (t ++ newline) ++ file_lines s)%list.
Proof.
  induction t as [|c t IH]; simpl; [reflexivity|].
  destruct (Ascii.eqb c Str.LF).
  - now rewrite IH.
  - rewrite IH. pose proof (file_lines_closed_nonempty t) as Hne.
    destruct (file_lines (t ++ newline)); [contradiction|reflexivity].
Qed.

Lemma file_lines_one (s : string) :
  Str.mem Str.LF s = false -> file_lines (s ++ newline) = [s ++ newline].
Proof.
  induction s as [|c s IH]; intros H; [reflexivity|].
  apply mem_cons in H as [Hc Hs]. simpl. rewrite Hc. now rewrite IH.
Qed.

Lemma rstrip_id (s : string) :
  Str.mem Str.LF s = false -> Str.rstrip Str.LF s = s.
Proof.
  induction s as [|c s IH]; intros H; [reflexivity|].
  apply mem_cons in H as [Hc Hs]. simpl. rewrite IH by exact Hs.
  destruct s; [now rewrite Hc | reflexivity].
Qed.

Lemma rstrip_newline (s : string) :
  Str.rstrip Str.LF (s ++ newline) = Str.rstrip Str.LF s.
Proof. induction s as [|c s IH]; simpl; [reflexivity | now rewrite IH]. Qed.

Lemma strip_line (s : string) :
  Str.mem Str.LF s = false -> Str.strip Str.LF (s ++ newline) = s.
Proof.
  intros H. unfold Str.strip. destruct s as [|c s]; [reflexivity|].
  pose proof H as H'. apply mem_cons in H' as [Hc _].
  simpl Str.lstrip. rewrite Hc.
  change (String c (s ++ newline)) with (String c s ++ newline).
  rewrite rstrip_newline. now apply rstrip_id.
Qed.

Lemma in_id_log_app (x : string) (l1 l2 : list string) :
  in_id_log x (l1 ++ l2) = in_id_log x l1 || in_id_log x l2.
Proof. apply existsb_app. Qed.

(** What [commit] leaves in [id_log.txt]. *)
Lemma commit_txt (preprint_id : string) (w : world) :
  id_log_txt (snd (commit preprint_id w))
  = id_log_txt w ++ preprint_id ++ newline.
Proof. reflexivity. Qed.

End IdLogFacts.

(** C8, as the code has it: for an identifier without line break and a
    log that is empty or ends in a line break, the log that [commit] has
    appended to, loaded again, contains the identifier. *)
Theorem commit_then_load (preprint_id : string) (w : world) :
  IdLog.no_line_break preprint_id ->
  IdLog.closed (id_log_txt w) ->
  in_id_log preprint_id
    (load_id_log (id_log_txt (snd (commit preprint_id w)))) = true.
Proof.
  intros [Hlf Hcr] Hclosed. rewrite IdLogFacts.commit_txt. unfold load_id_log.
  assert (Hline : universal_newlines (preprint_id ++ IdLog.newline)
                  = preprint_id ++ IdLog.newline)
    by (apply IdLogFacts.universal_newlines_id; now apply IdLogFacts.mem_app_newline).
  destruct Hclosed as [-> | [t ->]].
  - simpl append. rewrite Hline, IdLogFacts.file_lines_one by exact Hlf.
    simpl. rewrite IdLogFacts.strip_line by exact Hlf.
    now rewrite String.eqb_refl.
  - unfold IdLog.newline at 1. rewrite StrFacts.app_assoc. simpl append.
    destruct (IdLogFacts.universal_newlines_cut (String.length t) t
                (preprint_id ++ IdLog.newline) (le_n _)) as [t' ->].
    rewrite Hline, IdLogFacts.file_lines_cut, (IdLogFacts.file_lines_one _ Hlf).
    rewrite List.map_app, IdLogFacts.in_id_log_app. simpl.
    rewrite IdLogFacts.strip_line by exact Hlf.
    rewrite String.eqb_refl. now rewrite orb_true_r.
Qed.

Lemma commit_then_load_witness :
  IdLog.no_line_break "456" /\
  IdLog.closed (id_log_txt (mkWorld [] ("123" ++ IdLog.newline) None [])) /\
  in_id_log "456"
    (load_id_log
       (id_log_txt
          (snd (commit "456" (mkWorld [] ("123" ++ IdLog.newline) None [])))))
  = true.
Proof.
  assert (Hid : IdLog.no_line_break "456") by (split; reflexivity).
  assert (Hlog : IdLog.closed
                   (id_log_txt (mkWorld [] ("123" ++ IdLog.newline) None [])))
    by (right; exists "123"; reflexivity).
  split; [exact Hid|]. split; [exact Hlog|].
  exact (commit_then_load "456" _ Hid Hlog).
Defined.

(** C8, against the claim as stated: after a log whose last line is not
    closed, and for an identifier with a line break in it, the reloaded
    log does not contain the committed identifier. *)
Lemma commit_then_load_fails :
  in_id_log "456"
    (load_id_log (id_log_txt (snd (commit "456" (mkWorld [] "123" None [])))))
  = false /\
  load_id_log (id_log_txt (snd (commit "456" (mkWorld [] "123" None []))))
  = ["123456"] /\
  in_id_log ("4" ++ IdLog.newline ++ "5")
    (load_id_log
       (id_log_txt
          (snd (commit ("4" ++ IdLog.newline ++ "5") Scenario.fresh))))
  = false.
Proof. repeat split. Qed.

(** ** The main loop *)

Section Frame.

Context {X : Type} (f : world -> X).

Lemma keeps_ret {A : Type} (a : A) : keeps f (ret a).
Proof. intros w. reflexivity. Qed.

Lemma keeps_raise {A : Type} (e : exn) : keeps f (@raise A e).
Proof. intros w. reflexivity. Qed.

Lemma keeps_pure {A : Type} (r : result A) : keeps f (fun w => (r, w)).
Proof. intros w. reflexivity. Qed.

Lemma keeps_bind {A B : Type} (c : M A) (k : A -> M B) :
  keeps f c -> (forall a, keeps f (k a)) -> keeps f (bind c k).
Proof.
  intros Hc Hk w. unfold bind. specialize (Hc w).
  destruct (c w) as [[a|e] w']; simpl in *.
  - now rewrite Hk.
  - exact Hc.
Qed.

End Frame.

Lemma keeps_summaries_write_log (e : log_entry) :
  is_summary e = false -> keeps summaries (write_log e).
Proof.
  intros He w. unfold summaries, write_log. simpl.
  rewrite filter_app. simpl. rewrite He. apply app_nil_r.
Qed.

Lemma keeps_summaries_outgoing {A : Type} (c : call)
    (answer : list call -> result A) :
  keeps summaries (outgoing c answer).
Proof. intros w. reflexivity. Qed.

Ltac keeps_step :=
  first
    [ apply keeps_bind; [|intros ?]
    | apply keeps_ret
    | apply keeps_pure
    | apply keeps_summaries_outgoing
    | apply keeps_summaries_write_log; reflexivity
    | match goal with
      | |- keeps _ (if ?b then _ else _) => destruct b
      | |- keeps _ (match ?t with Rejected => _ | Text _ => _ end) =>
          destruct t
      end ].

Lemma keeps_summaries_tweet_image (E : env) (url message : string)
    (usetwitter : bool) :
  keeps summaries (tweet_image E url message usetwitter).
Proof.
  unfold tweet_image. repeat keeps_step;
    intros w; unfold write_temp, read_temp, os_remove_temp,
      os_path_getsize_temp; destruct (temp_png w); reflexivity.
Qed.

Lemma keeps_summaries_process (E : env) (usetwitter : bool)
    (id_log : list string) (l : Summary) (c : counters) :
  keeps summaries (process E usetwitter id_log l c).
Proof.
  unfold process, commit.
  repeat first [ apply keeps_summaries_tweet_image | keeps_step ].
  intros w. reflexivity.
Qed.

Lemma keeps_summaries_loop (E : env) (usetwitter : bool)
    (id_log : list string) (n : nat) :
  forall doc c, keeps summaries (loop E usetwitter id_log n doc c).
Proof.
  induction n as [|n IH]; intros doc c; simpl.
  - apply keeps_ret.
  - destruct doc as [|l doc]; [apply keeps_raise|].
    apply keeps_bind; [apply keeps_summaries_process | intros c'; apply IH].
Qed.

(** A stream shorter than the number of turns ends the loop with an
    exception: [StopIteration] from [next], unless a turn raised before. *)
Lemma loop_short (E : env) (usetwitter : bool) (id_log : list string)
    (n : nat) :
  forall doc c w, (List.length doc < n)%nat ->
    exists e, fst (loop E usetwitter id_log n doc c w) = Raise e.
Proof.
  induction n as [|n IH]; intros doc c w Hlen; [lia|].
  destruct doc as [|l doc]; simpl.
  - now exists StopIteration.
  - unfold bind. destruct (process E usetwitter id_log l c w) as [[c'|e] w'].
    + apply IH. simpl in Hlen. lia.
    + now exists e.
Qed.

(** The loop never looks past its first [n] summaries. *)
Lemma loop_firstn (E : env) (usetwitter : bool) (id_log : list string)
    (n : nat) :
  forall doc c w,
    loop E usetwitter id_log n doc c w
    = loop E usetwitter id_log n (firstn n doc) c w.
Proof.
  induction n as [|n IH]; intros doc c w; [reflexivity|].
  destruct doc as [|l doc]; simpl; [reflexivity|].
  unfold bind. destruct (process E usetwitter id_log l c w) as [[c'|e] w'];
    [apply IH | reflexivity].
Qed.

(** A summary whose identifier is in [id_log] is passed over. *)
Lemma process_seen (E : env) (usetwitter : bool) (id_log : list string)
    (l : Summary) (c : counters) :
  in_id_log (str_id (id l)) id_log = true ->
  process E usetwitter id_log l c = ret c.
Proof. intros H. unfold process. now rewrite H. Qed.

Lemma loop_seen (E : env) (usetwitter : bool) (id_log : list string)
    (n : nat) :
  forall doc c w,
    Forall (fun l => in_id_log (str_id (id l)) id_log = true) doc ->
    snd (loop E usetwitter id_log n doc c w) = w.
Proof.
  induction n as [|n IH]; intros doc c w Hseen; [reflexivity|].
  destruct doc as [|l doc]; simpl; [reflexivity|].
  inversion Hseen as [|? ? Hl Hdoc]; subst.
  rewrite (process_seen E usetwitter id_log l c Hl). unfold bind, ret.
  now apply IH.
Qed.

(** C2: when every identifier of the stream is in the loaded [id_log],
    the run makes no outgoing call (none to the posting API, no fetch of
    a detail or of files) and leaves [id_log.txt], and so the identifiers
    loaded from it, as they were. *)
Theorem bot_all_seen (E : env) (usetwitter : bool) (sizeof_doc : Z)
    (doc : list Summary) (w : world) :
  Forall (fun l => in_id_log (str_id (id l)) (load_id_log (id_log_txt w)) = true)
         doc ->
  let w' := snd (bot E usetwitter sizeof_doc doc w) in
  calls w' = calls w /\
  filter is_post (calls w') = filter is_post (calls w) /\
  filter is_fetch (calls w') = filter is_fetch (calls w) /\
  id_log_txt w' = id_log_txt w /\
  load_id_log (id_log_txt w') = load_id_log (id_log_txt w) /\
  temp_png w' = temp_png w.
Proof.
  intros Hseen. cbv zeta.
  assert (H : calls (snd (bot E usetwitter sizeof_doc doc w)) = calls w /\
              id_log_txt (snd (bot E usetwitter sizeof_doc doc w))
              = id_log_txt w /\
              temp_png (snd (bot E usetwitter sizeof_doc doc w)) = temp_png w).
  { unfold bot, bind, read_id_log_txt, write_log. cbn.
    match goal with
    | |- context [loop E usetwitter ?il ?n doc ?c ?w0] =>
        pose proof (loop_seen E usetwitter il n doc c w0 Hseen) as Hw;
        destruct (loop E usetwitter il n doc c w0) as [[c'|e] w1]
    end; simpl in Hw; subst w1; cbn; repeat split. }
  destruct H as (Hc & Hi & Ht). rewrite Hc, Hi. repeat split. exact Ht.
Qed.

Lemma bot_all_seen_witness :
  Forall (fun l =>
            in_id_log (str_id (id l))
              (load_id_log
                 (id_log_txt (mkWorld [] ("123" ++ IdLog.newline) None [])))
            = true)
         [mkSummary (IdNumber 123)] /\
  calls (snd (bot Scenario.all_fine true 112 [mkSummary (IdNumber 123)]
                (mkWorld [] ("123" ++ IdLog.newline) None [])))
  = [].
Proof.
  assert (H : Forall (fun l =>
            in_id_log (str_id (id l))
              (load_id_log
                 (id_log_txt (mkWorld [] ("123" ++ IdLog.newline) None [])))
            = true)
         [mkSummary (IdNumber 123)])
    by (constructor; [reflexivity | constructor]).
  split; [exact H|].
  apply (bot_all_seen Scenario.all_fine true 112 [mkSummary (IdNumber 123)]
           (mkWorld [] ("123" ++ IdLog.newline) None []) H).
Defined.

(** C3, at the failing inputs: the loop makes [sys.getsizeof(doc)] turns,
    whatever the stream holds.  A stream with fewer summaries ends the run
    with an exception ([StopIteration] from [next] at the latest) and no
    run-summary line is written. *)
Theorem bot_short_stream (E : env) (usetwitter : bool) (sizeof_doc : Z)
    (doc : list Summary) (w : world) :
  (Z.of_nat (List.length doc) < sizeof_doc)%Z ->
  let r := bot E usetwitter sizeof_doc doc w in
  (exists e, fst r = Raise e) /\ summaries (snd r) = summaries w.
Proof.
  intros Hlen. cbv zeta.
  unfold bot, bind, read_id_log_txt, write_log. cbn.
  match goal with
  | |- context [loop E usetwitter ?il ?n doc ?c ?w0] =>
      destruct (loop_short E usetwitter il n doc c w0 ltac:(lia)) as [e He];
      pose proof (keeps_summaries_loop E usetwitter il n doc c w0) as Hk;
      destruct (loop E usetwitter il n doc c w0) as [[c'|e'] w1]
  end; simpl in He; [discriminate|].
  cbn. split; [now exists e'|].
  simpl in Hk. rewrite Hk. unfold summaries. cbn.
  rewrite <- app_assoc, filter_app. cbn. apply app_nil_r.
Qed.

Lemma bot_short_stream_witness :
  (Z.of_nat (List.length [mkSummary (IdNumber 12345)]) < 112)%Z /\
  (exists e,
     fst (bot Scenario.all_fine true 112 [mkSummary (IdNumber 12345)]
            Scenario.fresh) = Raise e) /\
  summaries (snd (bot Scenario.all_fine true 112 [mkSummary (IdNumber 12345)]
                    Scenario.fresh))
  = summaries Scenario.fresh.
Proof.
  split; [reflexivity|].
  apply (bot_short_stream Scenario.all_fine true 112
           [mkSummary (IdNumber 12345)] Scenario.fresh).
  reflexivity.
Defined.

(** One new article and 112 turns: the article is announced and
    committed, then [next] raises and the run ends without its summary
    line. *)
Example bot_one_new_article :
  let r := bot Scenario.all_fine true 112 [mkSummary (IdNumber 12345)]
             Scenario.fresh in
  fst r = Raise StopIteration /\
  id_log_txt (snd r) = "12345" ++ IdLog.newline /\
  filter is_post (calls (snd r))
  = [UpdateWithMedia "temp.png" "PNGDATA"
       ("A Study of X by B. Jones & co-workers #organic-chemistry #catalysis"
          ++ ComposerSpec.two_line_breaks ++ "https://doi.org/10.1/abc")] /\
  summaries (snd r) = [].
Proof. cbv zeta. repeat split. Qed.

(** A stream longer than the number of turns: the summaries after the
    first [sizeof_doc] are never looked at, and the summary line is
    written all the same. *)
Example bot_long_stream (E : env) (usetwitter : bool) (sizeof_doc : Z)
    (doc : list Summary) (w : world) :
  bot E usetwitter sizeof_doc doc w
  = bot E usetwitter sizeof_doc (firstn (Z.to_nat sizeof_doc) doc) w.
Proof.
  unfold bot, bind, read_id_log_txt, write_log. cbn.
  now rewrite loop_firstn.
Qed.

(** ** More on the composer *)

(** X1: a composition is rejected exactly when title, [" by "] and the
    author clause alone are longer than 255 characters; the tags and the
    URL never lead to a rejection. *)
Theorem prepare_tweet_rejected_iff (title : string) (authors : list Author)
    (url : string) (tags : list string) :
  authors <> [] ->
  exists a, last_author authors = Ok a /\
    (prepare_tweet title authors url tags = Ok Rejected <->
     (255 < Str.len title + 4 + Str.len (full_name a)
            + (if (1 <? List.length authors)%nat then 13 else 0))%Z).
Proof.
  intros Hne. destruct (last_author_nonempty authors Hne) as [a Ha].
  exists a. split; [exact Ha|].
  rewrite (prepare_tweet_unfold title authors url tags a Ha). cbv zeta.
  unfold ComposerSpec.text. rewrite realtweetlength_text, <- len_head.
  pose proof (len_body title a authors tags) as Hb. cbv zeta in Hb.
  destruct (280 <? Str.len (ComposerSpec.body title a authors tags) + 2 + 23)%Z
    eqn:Hlen.
  - apply Z.ltb_lt in Hlen. split; [intros _; lia | reflexivity].
  - apply Z.ltb_ge in Hlen. split; [discriminate | intros Hh; lia].
Qed.

Lemma prepare_tweet_rejected_iff_witness :
  [mkAuthor "A. Smith"; mkAuthor "B. Jones"] <> [] /\
  exists a, last_author [mkAuthor "A. Smith"; mkAuthor "B. Jones"] = Ok a /\
    (prepare_tweet "A Study of X" [mkAuthor "A. Smith"; mkAuthor "B. Jones"]
       "https://doi.org/10.1/abc" ["Catalysis"] = Ok Rejected <->
     (255 < Str.len "A Study of X" + 4 + Str.len (full_name a)
            + (if (1 <? List.length [mkAuthor "A. Smith"; mkAuthor "B. Jones"])%nat
               then 13 else 0))%Z).
Proof.
  assert (Hne : [mkAuthor "A. Smith"; mkAuthor "B. Jones"] <> [])
    by discriminate.
  split; [exact Hne|].
  exact (prepare_tweet_rejected_iff "A Study of X" _
           "https://doi.org/10.1/abc" ["Catalysis"] Hne).
Defined.

Lemma fold_add_hashtag_all (tags : list string) :
  forall acc,
    (Str.len acc + Str.len (flatten (List.map hashtag_of tags)) <= 255)%Z ->
    fold_left add_hashtag tags acc = acc ++ flatten (List.map hashtag_of tags).
Proof.
  induction tags as [|tag rest IH]; intros acc Hfit;
    cbn [fold_left flatten List.map] in *.
  - now rewrite StrFacts.app_nil_r.
  - rewrite StrFacts.len_app in Hfit.
    pose proof (StrFacts.len_nonneg (flatten (List.map hashtag_of rest))) as Hr.
    unfold add_hashtag at 2.
    destruct (Str.len acc + Str.len (hashtag_of tag) <=? 255)%Z eqn:Hone.
    + rewrite IH.
      * now rewrite StrFacts.app_assoc.
      * rewrite StrFacts.len_app. lia.
    + apply Z.leb_gt in Hone. lia.
Qed.

(** X2: when title, author clause and the hashtags of all tags together
    stay within 255 characters, the text carries the hashtag of every tag,
    in the order of the tags. *)
Theorem prepare_tweet_all_tags (title : string) (front : list Author)
    (a : Author) (url : string) (tags : list string) :
  let authors := (front ++ [a])%list in
  let h := ComposerSpec.head title a authors in
  (Str.len h + Str.len (flatten (List.map hashtag_of tags)) <= 255)%Z ->
  prepare_tweet title authors url tags
  = Ok (Text (h ++ flatten (List.map hashtag_of tags)
                ++ ComposerSpec.two_line_breaks ++ url)).
Proof.
  cbv zeta. intros Hfit.
  unfold prepare_tweet. rewrite last_author_app. cbv zeta.
  rewrite head_text, (fold_add_hashtag_all tags _ Hfit).
  change (String Str.LF (String Str.LF EmptyString))
    with ComposerSpec.two_line_breaks.
  rewrite realtweetlength_text, StrFacts.len_app.
  destruct (280 <? _)%Z eqn:Hlen; [apply Z.ltb_lt in Hlen; lia|].
  now rewrite (StrFacts.app_assoc (ComposerSpec.head title a (front ++ [a])%list)).
Qed.

Lemma prepare_tweet_all_tags_witness :
  (Str.len (ComposerSpec.head "A Study of X" (mkAuthor "B. Jones")
              ([mkAuthor "A. Smith"] ++ [mkAuthor "B. Jones"])%list)
   + Str.len (flatten (List.map hashtag_of ["Organic Chemistry"; "Catalysis"]))
   <= 255)%Z /\
  prepare_tweet "A Study of X" ([mkAuthor "A. Smith"] ++ [mkAuthor "B. Jones"])%list
    "https://doi.org/10.1/abc" ["Organic Chemistry"; "Catalysis"]
  = Ok (Text (ComposerSpec.head "A Study of X" (mkAuthor "B. Jones")
                ([mkAuthor "A. Smith"] ++ [mkAuthor "B. Jones"])%list
              ++ flatten (List.map hashtag_of ["Organic Chemistry"; "Catalysis"])
              ++ ComposerSpec.two_line_breaks ++ "https://doi.org/10.1/abc")).
Proof.
  assert (Hfit :
    (Str.len (ComposerSpec.head "A Study of X" (mkAuthor "B. Jones")
                ([mkAuthor "A. Smith"] ++ [mkAuthor "B. Jones"])%list)
     + Str.len (flatten (List.map hashtag_of ["Organic Chemistry"; "Catalysis"]))
     <= 255)%Z) by (vm_compute; discriminate).
  split; [exact Hfit|].
  exact (prepare_tweet_all_tags "A Study of X" [mkAuthor "A. Smith"]
           (mkAuthor "B. Jones") "https://doi.org/10.1/abc"
           ["Organic Chemistry"; "Catalysis"] Hfit).
Defined.

Lemma mem_replace_char (a b : ascii) (s : string) :
  Ascii.eqb b a = false -> Str.mem a (Str.replace_char a b s) = false.
Proof.
  intros Hab. unfold Str.replace_char.
  induction s as [|c s IH]; [reflexivity|].
  cbn [Str.map Str.mem]. rewrite IH, orb_false_r.
  destruct (Ascii.eqb c a) eqn:Hc; [exact Hab | exact Hc].
Qed.

(** X3: the hashtag of a tag is a blank, ["#"] and a text without any
    blank, whatever the tag is and whatever lower-casing makes of it
    ([mem_replace_char] holds of every text): a tag of several words
    stays one hashtag. *)
Theorem hashtag_of_no_blank (tag : string) :
  exists h,
    hashtag_of tag = String " " (String "#" h) /\
    Str.mem " " h = false.
Proof.
  exists (Str.replace_char " " "-" (Str.lower tag)).
  split; [reflexivity|]. now apply mem_replace_char.
Qed.

(** ** More on the poster *)

Ltac poster_cases E url message w :=
  run_poster;
  destruct (0 <? Str.len url)%Z; cbn;
  [ destruct (requests_get E (calls w) url) as [?resp|?e]; cbn;
    [ destruct (status_code resp =? 200)%Z; cbn | ] | ];
  repeat match goal with
    | |- context [update_with_media ?a ?b ?c ?d ?e] =>
        destruct (update_with_media a b c d e) as [[]|?e]; cbn
    | |- context [update_status ?a ?b ?c] =>
        destruct (update_status a b c) as [[]|?e]; cbn
    end.

Ltac normalize_calls :=
  rewrite ?filter_app; cbn [filter is_post is_download is_sleep is_fetch
                            is_tweet_successful app];
  rewrite ?app_nil_r, <- ?app_assoc; cbn [app].

(** X4: one invocation of [tweet_image] makes at most one call to the
    posting API, with [message] as its status: none without the posting
    API, exactly one when it is used and [tweet_image] returns; and it
    downloads at most once. *)
Theorem tweet_image_posts_once (E : env) (url message : string)
    (usetwitter : bool) (w : world) :
  let r := tweet_image E url message usetwitter w in
  exists posts downloads,
    filter is_post (calls (snd r)) = (filter is_post (calls w) ++ posts)%list /\
    filter is_download (calls (snd r))
    = (filter is_download (calls w) ++ downloads)%list /\
    Forall (fun c => status_of c = Some message) posts /\
    (List.length downloads <= 1)%nat /\
    (if usetwitter
     then match fst r with
          | Ok _ => List.length posts = 1%nat
          | Raise _ => (List.length posts <= 1)%nat
          end
     else posts = []).
Proof.
  cbv zeta. destruct usetwitter; poster_cases E url message w;
    normalize_calls;
    first
      [ exists [], []; rewrite !app_nil_r;
        repeat split; solve [constructor | cbn; lia]
      | exists [], [RequestsGet url];
        rewrite !app_nil_r;
        repeat split; solve [constructor | cbn; lia]
      | eexists [_], []; rewrite !app_nil_r;
        repeat split;
        solve [reflexivity | repeat constructor | cbn; lia]
      | eexists [_], [RequestsGet url];
        repeat split;
        solve [reflexivity | repeat constructor | cbn; lia] ].
Qed.

(** X5: when [tweet_image] returns, the last line it has logged is the
    one with the message and its length, and it is the only such line it
    has logged; when it raises, it has logged no such line. *)
Theorem tweet_image_audit_line (E : env) (url message : string)
    (usetwitter : bool) (w : world) :
  let r := tweet_image E url message usetwitter w in
  exists pre,
    Forall (fun e => is_tweet_successful e = false) pre /\
    match fst r with
    | Ok _ =>
        activity_log (snd r)
        = (activity_log w ++ pre
             ++ [LogTweetSuccessful message (Str.len message)])%list
    | Raise _ => activity_log (snd r) = (activity_log w ++ pre)%list
    end.
Proof.
  cbv zeta. destruct usetwitter; poster_cases E url message w;
    rewrite <- ?app_assoc; cbn [app];
    first
      [ exists []; split; [constructor|]; cbn [app];
        solve [reflexivity | now rewrite app_nil_r]
      | exists [LogDownloadError]; split; [repeat constructor | reflexivity]
      | exists [LogOffline]; split; [repeat constructor | reflexivity]
      | exists [LogDownloadError; LogOffline];
        split; [repeat constructor | reflexivity]
      | eexists [LogOffline; LogImageSize _];
        split; [repeat constructor | reflexivity] ].
Qed.

(** X6: [temp.png] after [tweet_image].  Without a download (no URL, an
    exception, a status other than 200) the file is as it was.  After a
    download it holds the image when the posting API is not used, and
    also when the post raises; it is removed when the post returns. *)
Theorem tweet_image_temp_file (E : env) (url message : string)
    (usetwitter : bool) (w : world) :
  let r := tweet_image E url message usetwitter w in
  temp_png (snd r)
  = match (if (0 <? Str.len url)%Z
           then Some (requests_get E (calls w) url) else None) with
    | Some (Ok resp) =>
        if (status_code resp =? 200)%Z then
          if usetwitter then
            match fst r with
            | Ok _ => None
            | Raise _ => Some (content resp)
            end
          else Some (content resp)
        else temp_png w
    | _ => temp_png w
    end.
Proof.
  cbv zeta. destruct usetwitter; poster_cases E url message w; reflexivity.
Qed.

Lemma scan_files_none (l : list FileRecord) :
  Forall (fun x => ~ ImageSpec.qualifies x) l -> scan_files l = EmptyString.
Proof.
  induction 1 as [|r rest Hr _ IH]; [reflexivity|].
  rewrite scan_files_step. destruct (picks r) eqn:Hp; [|exact IH].
  apply picks_iff in Hp. contradiction.
Qed.

(** X7: when the files of an article hold no record that can serve as
    thumbnail (or are no list at all), the URL handed to [tweet_image] is
    empty and [tweet_image] downloads nothing. *)
Theorem no_thumbnail_no_download (E : env) (fs : files_json)
    (message : string) (usetwitter : bool) (w : world) :
  (forall l, fs = FilesList l ->
             Forall (fun x => ~ ImageSpec.qualifies x) l) ->
  get_preprint_image_url fs = EmptyString /\
  filter is_download
    (calls (snd (tweet_image E (get_preprint_image_url fs) message
                   usetwitter w)))
  = filter is_download (calls w).
Proof.
  intros Hnone.
  assert (Hurl : get_preprint_image_url fs = EmptyString).
  { destruct fs; try reflexivity. simpl. apply scan_files_none.
    now apply Hnone. }
  split; [exact Hurl|]. rewrite Hurl.
  destruct usetwitter; poster_cases E EmptyString message w;
    normalize_calls; reflexivity.
Qed.

Lemma no_thumbnail_no_download_witness :
  (forall l, FilesList [mkFile "fig1.svg" false "https://files.example/1";
                        mkFile "fig2.png" true "https://elsewhere.example/2"]
             = FilesList l ->
             Forall (fun x => ~ ImageSpec.qualifies x) l) /\
  get_preprint_image_url
    (FilesList [mkFile "fig1.svg" false "https://files.example/1";
                mkFile "fig2.png" true "https://elsewhere.example/2"])
  = EmptyString.
Proof.
  assert (H : forall l,
             FilesList [mkFile "fig1.svg" false "https://files.example/1";
                        mkFile "fig2.png" true "https://elsewhere.example/2"]
             = FilesList l ->
             Forall (fun x => ~ ImageSpec.qualifies x) l).
  { intros l Hl. injection Hl as <-.
    repeat constructor; intros Hq; apply picks_iff in Hq; discriminate. }
  split; [exact H|].
  exact (proj1 (no_thumbnail_no_download Scenario.all_fine _ "A Study of X"
                  true Scenario.fresh H)).
Defined.

(** ** More on the identifier log and the keys *)

Module LogFacts.

Import IdLog.

Lemma un_other (c : ascii) (s : string) :
  Ascii.eqb c Str.CR = false ->
  universal_newlines (String c s) = String c (universal_newlines s).
Proof. intros Hc. simpl. now rewrite Hc. Qed.

Lemma un_cr_lf (c c' : ascii) (s : string) :
  Ascii.eqb c Str.CR = true -> Ascii.eqb c' Str.LF = true ->
  universal_newlines (String c (String c' s))
  = String Str.LF (universal_newlines s).
Proof. intros Hc Hc'. simpl. now rewrite Hc, Hc'. Qed.

Lemma un_cr_other (c c' : ascii) (s : string) :
  Ascii.eqb c Str.CR = true -> Ascii.eqb c' Str.LF = false ->
  universal_newlines (String c (String c' s))
  = String Str.LF (universal_newlines (String c' s)).
Proof. intros Hc Hc'. simpl. now rewrite Hc, Hc'. Qed.

Lemma un_cr_end (c : ascii) :
  Ascii.eqb c Str.CR = true ->
  universal_newlines (String c EmptyString) = String Str.LF EmptyString.
Proof. intros Hc. simpl. now rewrite Hc. Qed.

(** The translation of the line ends of a text that continues after a
    ["\n"] is the translation of its two parts. *)
Lemma universal_newlines_split (n : nat) :
  forall a b, (String.length a <= n)%nat ->
    universal_newlines (a ++ String Str.LF b)
    = universal_newlines (a ++ newline) ++ universal_newlines b.
Proof.
  induction n as [|n IH]; intros a b Hlen.
  - destruct a; [reflexivity | simpl in Hlen; lia].
  - destruct a as [|c a]; [reflexivity|].
    simpl in Hlen. cbn [append].
    destruct (Ascii.eqb c Str.CR) eqn:Hc.
    + destruct a as [|c' a]; cbn [append].
      * unfold newline. now rewrite !un_cr_lf.
      * destruct (Ascii.eqb c' Str.LF) eqn:Hc'.
        -- rewrite !un_cr_lf by assumption.
           rewrite IH by (simpl in Hlen; lia). reflexivity.
        -- rewrite !un_cr_other by assumption.
           change (String c' (a ++ String Str.LF b))
             with (String c' a ++ String Str.LF b).
           change (String c' (a ++ newline)) with (String c' a ++ newline).
           rewrite IH by lia. reflexivity.
    + rewrite !un_other by assumption. rewrite IH by lia. reflexivity.
Qed.

Lemma load_app_closed (t r : string) :
  load_id_log ((t ++ newline) ++ r)
  = (load_id_log (t ++ newline) ++ load_id_log r)%list.
Proof.
  unfold load_id_log. rewrite StrFacts.app_assoc.
  change (newline ++ r) with (String Str.LF r).
  rewrite (universal_newlines_split (String.length t) t r (le_n _)).
  destruct (IdLogFacts.universal_newlines_cut (String.length t) t
              EmptyString (le_n _)) as [t' Ht].
  fold newline in Ht. rewrite Ht.
  change (universal_newlines EmptyString) with EmptyString.
  rewrite StrFacts.app_assoc.
  change (String Str.LF EmptyString ++ universal_newlines r)
    with (String Str.LF (universal_newlines r)).
  rewrite IdLogFacts.file_lines_cut. now rewrite List.map_app.
Qed.

Lemma load_line (s : string) :
  no_line_break s -> load_id_log (id_line s) = [s].
Proof.
  intros [Hlf Hcr]. unfold load_id_log, id_line.
  rewrite IdLogFacts.universal_newlines_id
    by now apply IdLogFacts.mem_app_newline.
  rewrite IdLogFacts.file_lines_one by exact Hlf. simpl.
  now rewrite IdLogFacts.strip_line.
Qed.

Lemma load_lines_app (ids : list string) (rest : string) :
  Forall no_line_break ids ->
  load_id_log (id_lines ids ++ rest) = (ids ++ load_id_log rest)%list.
Proof.
  induction 1 as [|i ids Hi _ IH]; [reflexivity|].
  unfold id_lines. cbn [List.map flatten]. fold (id_lines ids).
  rewrite StrFacts.app_assoc. unfold id_line at 1.
  rewrite load_app_closed. fold (id_line i). rewrite (load_line i Hi).
  now rewrite IH.
Qed.

Lemma load_closed_app (txt rest : string) :
  closed txt ->
  load_id_log (txt ++ rest) = (load_id_log txt ++ load_id_log rest)%list.
Proof.
  intros [-> | [t ->]]; [reflexivity | apply load_app_closed].
Qed.

(** The text that a run of commits leaves in [id_log.txt]. *)
Lemma commits_txt (ids : list string) :
  forall w,
    id_log_txt (fold_left (fun w i => snd (commit i w)) ids w)
    = id_log_txt w ++ id_lines ids.
Proof.
  induction ids as [|i ids IH]; intros w; cbn [fold_left].
  - unfold id_lines. simpl. now rewrite StrFacts.app_nil_r.
  - rewrite IH, IdLogFacts.commit_txt. unfold id_lines.
    cbn [List.map flatten]. unfold id_line at 2.
    now rewrite !StrFacts.app_assoc.
Qed.

End LogFacts.

(** X8: a run of commits, read back: for identifiers without line break
    and a log that is empty or ends in a line break, loading the log
    after the commits gives the entries it had before, followed by the
    committed identifiers in the order of the commits. *)
Theorem commits_then_load (ids : list string) (w : world) :
  Forall IdLog.no_line_break ids ->
  IdLog.closed (id_log_txt w) ->
  load_id_log (id_log_txt (fold_left (fun w i => snd (commit i w)) ids w))
  = (load_id_log (id_log_txt w) ++ ids)%list.
Proof.
  intros Hids Hclosed. rewrite LogFacts.commits_txt.
  rewrite (LogFacts.load_closed_app _ _ Hclosed). f_equal.
  rewrite <- (StrFacts.app_nil_r (id_lines ids)).
  rewrite (LogFacts.load_lines_app ids EmptyString Hids).
  apply app_nil_r.
Qed.

Lemma commits_then_load_witness :
  Forall IdLog.no_line_break ["456"; "789"] /\
  IdLog.closed (id_log_txt (mkWorld [] ("123" ++ IdLog.newline) None [])) /\
  load_id_log
    (id_log_txt
       (fold_left (fun w i => snd (commit i w)) ["456"; "789"]
          (mkWorld [] ("123" ++ IdLog.newline) None [])))
  = ["123"; "456"; "789"].
Proof.
  assert (Hids : Forall IdLog.no_line_break ["456"; "789"])
    by (repeat constructor).
  assert (Hlog : IdLog.closed
                   (id_log_txt (mkWorld [] ("123" ++ IdLog.newline) None [])))
    by (right; exists "123"; reflexivity).
  split; [exact Hids|]. split; [exact Hlog|].
  exact (commits_then_load ["456"; "789"] _ Hids Hlog).
Defined.

Module EntryFacts.

Import IdLog.

Lemma un_no_cr (n : nat) :
  forall s, (String.length s <= n)%nat ->
    Str.mem Str.CR (universal_newlines s) = false.
Proof.
  induction n as [|n IH]; intros s Hlen.
  - destruct s; [reflexivity | simpl in Hlen; lia].
  - destruct s as [|c s]; [reflexivity|]. simpl in Hlen.
    destruct (Ascii.eqb c Str.CR) eqn:Hc.
    + destruct s as [|c' s].
      * now rewrite LogFacts.un_cr_end.
      * destruct (Ascii.eqb c' Str.LF) eqn:Hc'.
        -- rewrite LogFacts.un_cr_lf by assumption.
           cbn [Str.mem]. rewrite IH by (simpl in Hlen; lia). reflexivity.
        -- rewrite LogFacts.un_cr_other by assumption.
           cbn [Str.mem]. rewrite IH by lia. reflexivity.
    + rewrite LogFacts.un_other by assumption.
      cbn [Str.mem]. rewrite Hc, IH by lia. reflexivity.
Qed.

(** Every line of a text without ["\r"] is a text without line break,
    followed by ["\n"] or, at the end of the text, by nothing. *)
Lemma file_lines_shape (s : string) :
  Str.mem Str.CR s = false ->
  Forall (fun l => exists b, no_line_break b /\ (l = b ++ newline \/ l = b))
         (file_lines s).
Proof.
  induction s as [|c s IH]; intros Hcr; [constructor|].
  apply IdLogFacts.mem_cons in Hcr as [Hc Hs]. specialize (IH Hs).
  cbn [file_lines]. destruct (Ascii.eqb c Str.LF) eqn:Hlf.
  - apply Ascii.eqb_eq in Hlf. subst c. constructor; [|exact IH].
    exists EmptyString. split; [split; reflexivity | now left].
  - destruct (file_lines s) as [|line rest].
    + constructor; [|constructor]. exists (String c EmptyString).
      split; [|now right]. split; cbn [Str.mem]; [now rewrite Hlf | now rewrite Hc].
    + inversion IH as [|? ? (b & [Hb1 Hb2] & Hline) Hrest]; subst.
      constructor; [|exact Hrest]. exists (String c b). split.
      * split; cbn [Str.mem]; [now rewrite Hlf, Hb1 | now rewrite Hc, Hb2].
      * destruct Hline as [-> | ->]; [now left | now right].
Qed.

Lemma strip_body (b : string) :
  Str.mem Str.LF b = false -> Str.strip Str.LF b = b.
Proof.
  intros H. unfold Str.strip. destruct b as [|c b]; [reflexivity|].
  pose proof H as H'. apply IdLogFacts.mem_cons in H' as [Hc _].
  cbn [Str.lstrip]. rewrite Hc. now apply IdLogFacts.rstrip_id.
Qed.

Lemma load_entries (txt : string) :
  Forall no_line_break (load_id_log txt).
Proof.
  unfold load_id_log. apply Forall_forall. intros x Hx.
  apply in_map_iff in Hx as (l & <- & Hl).
  pose proof (file_lines_shape (universal_newlines txt)
                (un_no_cr (String.length txt) txt (le_n _))) as Hshape.
  rewrite Forall_forall in Hshape.
  destruct (Hshape l Hl) as (b & Hb & [-> | ->]).
  - rewrite IdLogFacts.strip_line by apply Hb. exact Hb.
  - rewrite strip_body by apply Hb. exact Hb.
Qed.

End EntryFacts.

(** X9: whatever [id_log.txt] holds, an identifier that is found in the
    loaded log has no line break in it; an identifier with a line break
    is never taken as seen. *)
Theorem seen_has_no_line_break (txt preprint_id : string) :
  in_id_log preprint_id (load_id_log txt) = true ->
  IdLog.no_line_break preprint_id.
Proof.
  intros Hin. unfold in_id_log in Hin.
  apply existsb_exists in Hin as (x & Hx & Heq).
  apply String.eqb_eq in Heq. subst x.
  pose proof (EntryFacts.load_entries txt) as Hall.
  rewrite Forall_forall in Hall. now apply Hall.
Qed.

Lemma seen_has_no_line_break_witness :
  in_id_log "456" (load_id_log ("123" ++ IdLog.newline ++ "456")) = true /\
  IdLog.no_line_break "456".
Proof.
  assert (H : in_id_log "456" (load_id_log ("123" ++ IdLog.newline ++ "456"))
              = true) by reflexivity.
  split; [exact H|].
  exact (seen_has_no_line_break ("123" ++ IdLog.newline ++ "456") "456" H).
Defined.

Module KeyFacts.

Import IdLog.

Lemma un_app_no_cr (k s : string) :
  Str.mem Str.CR k = false ->
  universal_newlines (k ++ s) = k ++ universal_newlines s.
Proof.
  induction k as [|c k IH]; intros H; [reflexivity|].
  apply IdLogFacts.mem_cons in H as [Hc Hk]. cbn [append].
  rewrite LogFacts.un_other by exact Hc. now rewrite IH.
Qed.

(** A line that ends in ["\r\n"] is read as the same line ending in
    ["\n"]. *)
Lemma load_crlf (k r : string) :
  Str.mem Str.CR k = false ->
  load_id_log ((k ++ line_end true) ++ r)
  = load_id_log ((k ++ line_end false) ++ r).
Proof.
  intros Hk. unfold load_id_log. rewrite !StrFacts.app_assoc.
  rewrite !(un_app_no_cr k _ Hk). cbn [line_end append].
  rewrite LogFacts.un_cr_lf by reflexivity.
  rewrite (LogFacts.un_other Str.LF) by reflexivity. reflexivity.
Qed.

Lemma load_text_lines (ls : list (string * bool)) (rest : string) :
  Forall (fun l => no_line_break (fst l)) ls ->
  load_id_log (text_lines ls ++ rest)
  = (List.map fst ls ++ load_id_log rest)%list.
Proof.
  induction 1 as [|[k crlf] ls Hk _ IH]; [reflexivity|].
  unfold text_lines. cbn [List.map flatten fst snd].
  fold (text_lines ls). rewrite StrFacts.app_assoc.
  assert (Hlf : load_id_log ((k ++ line_end crlf) ++ text_lines ls ++ rest)
                = load_id_log ((k ++ line_end false) ++ text_lines ls ++ rest))
    by (destruct crlf; [apply load_crlf, Hk | reflexivity]).
  rewrite Hlf. change (line_end false) with newline.
  rewrite LogFacts.load_app_closed. fold (id_line k).
  rewrite (LogFacts.load_line k Hk). now rewrite IH.
Qed.

Lemma file_lines_open (u : string) :
  Str.mem Str.LF u = false -> file_lines u = last_line u.
Proof.
  induction u as [|c u IH]; intros H; [reflexivity|].
  apply IdLogFacts.mem_cons in H as [Hc Hu]. cbn [file_lines].
  rewrite Hc, (IH Hu). destruct u; reflexivity.
Qed.

Lemma load_last_line (u : string) :
  no_line_break u -> load_id_log u = last_line u.
Proof.
  intros [Hlf Hcr]. unfold load_id_log.
  rewrite IdLogFacts.universal_newlines_id by exact Hcr.
  rewrite file_lines_open by exact Hlf. unfold last_line.
  destruct (String.eqb u EmptyString); [reflexivity|].
  cbn [List.map]. now rewrite EntryFacts.strip_body.
Qed.

(** The keys are the first five loaded entries. *)
Lemma load_keys_entries (txt : string) (entries : list string) :
  load_id_log txt = entries ->
  ((5 <= List.length entries)%nat ->
   load_keys txt
   = Ok (mkKeys (nth 0 entries EmptyString) (nth 1 entries EmptyString)
                (nth 2 entries EmptyString) (nth 3 entries EmptyString)
                (nth 4 entries EmptyString))) /\
  ((List.length entries < 5)%nat -> load_keys txt = Raise IndexError).
Proof.
  intros Hload. unfold load_keys. fold (load_id_log txt). rewrite Hload.
  split; intros Hlen.
  - destruct entries as [|k0 [|k1 [|k2 [|k3 [|k4 more]]]]];
      simpl in Hlen; try lia. reflexivity.
  - destruct entries as [|k0 [|k1 [|k2 [|k3 [|k4 more]]]]];
      try reflexivity. simpl in Hlen. lia.
Qed.

End KeyFacts.

(** X10: the keys.  Take a file whose lines end in ["\n"] or ["\r\n"],
    the last line possibly without line end, and no other line break.
    With at least five lines, the first five, without their line ends,
    are the five keys, whatever follows the fifth line; with fewer than
    five lines, the loading raises [IndexError]. *)
Theorem load_keys_lines (ls : list (string * bool)) (u : string) :
  Forall (fun l => IdLog.no_line_break (fst l)) ls ->
  IdLog.no_line_break u ->
  let entries := (List.map fst ls ++ last_line u)%list in
  ((5 <= List.length entries)%nat ->
   load_keys (text_lines ls ++ u)
   = Ok (mkKeys (nth 0 entries EmptyString) (nth 1 entries EmptyString)
                (nth 2 entries EmptyString) (nth 3 entries EmptyString)
                (nth 4 entries EmptyString))) /\
  ((List.length entries < 5)%nat ->
   load_keys (text_lines ls ++ u) = Raise IndexError) /\
  (forall rest,
     (5 <= List.length ls)%nat ->
     load_keys (text_lines ls ++ rest)
     = Ok (mkKeys (nth 0 (List.map fst ls) EmptyString)
                  (nth 1 (List.map fst ls) EmptyString)
                  (nth 2 (List.map fst ls) EmptyString)
                  (nth 3 (List.map fst ls) EmptyString)
                  (nth 4 (List.map fst ls) EmptyString))).
Proof.
  intros Hls Hu. cbv zeta.
  assert (Hload : load_id_log (text_lines ls ++ u)
                  = (List.map fst ls ++ last_line u)%list).
  { rewrite (KeyFacts.load_text_lines ls u Hls).
    now rewrite (KeyFacts.load_last_line u Hu). }
  destruct (KeyFacts.load_keys_entries _ _ Hload) as [Hok Hshort].
  split; [exact Hok|]. split; [exact Hshort|].
  intros rest Hlen.
  pose proof (KeyFacts.load_text_lines ls rest Hls) as Hrest.
  destruct (KeyFacts.load_keys_entries _ _ Hrest) as [Hok' _].
  rewrite Hok' by (rewrite length_app, length_map; lia).
  destruct ls as [|l0 [|l1 [|l2 [|l3 [|l4 more]]]]]; simpl in Hlen; try lia.
  reflexivity.
Qed.

(** Four lines, two of them ending in ["\r\n"], and a fifth without
    line end make five keys; without the fifth there are too few. *)
Lemma load_keys_lines_witness :
  Forall (fun l => IdLog.no_line_break (fst l))
    [("ck", false); ("cs", true); ("at", true); ("as", false)] /\
  IdLog.no_line_break "fig" /\
  (5 <= List.length
          (List.map fst [("ck", false); ("cs", true); ("at", true); ("as", false)]
             ++ last_line "fig")%list)%nat /\
  load_keys
    (text_lines [("ck", false); ("cs", true); ("at", true); ("as", false)]
       ++ "fig")
  = Ok (mkKeys "ck" "cs" "at" "as" "fig").
Proof.
  assert (Hls : Forall (fun l => IdLog.no_line_break (fst l))
                  [("ck", false); ("cs", true); ("at", true); ("as", false)])
    by (repeat constructor).
  assert (Hu : IdLog.no_line_break "fig") by (split; reflexivity).
  assert (Hlen :
    (5 <= List.length
            (List.map fst [("ck", false); ("cs", true); ("at", true); ("as", false)]
               ++ last_line "fig")%list)%nat) by (cbn; lia).
  split; [exact Hls|]. split; [exact Hu|]. split; [exact Hlen|].
  exact (proj1 (load_keys_lines
                  [("ck", false); ("cs", true); ("at", true); ("as", false)]
                  "fig" Hls Hu) Hlen).
Defined.

(** ** More on the main loop *)

Lemma tweet_image_keeps_id_log (E : env) (url message : string)
    (usetwitter : bool) :
  keeps id_log_txt (tweet_image E url message usetwitter).
Proof.
  intros w. destruct usetwitter; poster_cases E url message w; reflexivity.
Qed.

Ltac run_process :=
  unfold process, bind, write_log, outgoing, commit, append_id_log, ret; cbn.

Ltac split_tweet_image E :=
  match goal with
  | |- context [tweet_image E ?u ?m ?b ?w1] =>
      let Hk := fresh "Hk" in
      pose proof (tweet_image_keeps_id_log E u m b w1) as Hk;
      destruct (tweet_image E u m b w1) as [[[]|?e] ?w2]; cbn in Hk |- *
  end.

(** One turn on a summary that is not in [id_log]. *)
Lemma process_unseen (E : env) (usetwitter : bool) (id_log : list string)
    (l : Summary) (c : counters) (w : world) :
  in_id_log (str_id (id l)) id_log = false ->
  let r := process E usetwitter id_log l c w in
  match fst r with
  | Raise _ => id_log_txt (snd r) = id_log_txt w
  | Ok c' =>
      id_log_txt (snd r) = id_log_txt w ++ id_line (str_id (id l)) /\
      preprints_added c' = (preprints_added c + 1)%Z /\
      ((preprints_tweeted c' = (preprints_tweeted c + 1)%Z /\
        preprints_tweeted_FAILED c' = preprints_tweeted_FAILED c) \/
       (preprints_tweeted c' = preprints_tweeted c /\
        preprints_tweeted_FAILED c' = (preprints_tweeted_FAILED c + 1)%Z))
  end.
Proof.
  intros Hnew. cbv zeta. run_process. rewrite Hnew. cbn.
  destruct (preprint E (calls w) (str_id (id l))) as [p|e]; cbn;
    [|reflexivity].
  destruct (files E _ (str_id (id l))) as [fs|e]; cbn; [|reflexivity].
  match goal with
  | |- context [prepare_tweet ?a ?b ?u ?d] =>
      destruct (prepare_tweet a b u d) as [[|t]|e]; cbn; [| |reflexivity]
  end.
  - destruct usetwitter; cbn; repeat split; auto.
  - split_tweet_image E; [|exact Hk].
    destruct usetwitter; cbn; rewrite Hk; repeat split; auto.
Qed.

(** X11: the commit comes last.  On a summary that is not in [id_log], a
    turn that raises (a fetch fails, [prepare_tweet] or [tweet_image]
    raises) leaves [id_log.txt] as it was; a turn that returns has
    appended exactly the line of the identifier and counted the article
    once, as tweeted or as failed. *)
Theorem process_commits_last (E : env) (usetwitter : bool)
    (id_log : list string) (l : Summary) (c : counters) (w : world) :
  in_id_log (str_id (id l)) id_log = false ->
  let r := process E usetwitter id_log l c w in
  match fst r with
  | Raise _ => id_log_txt (snd r) = id_log_txt w
  | Ok c' =>
      id_log_txt (snd r)
      = id_log_txt w ++ str_id (id l) ++ String Str.LF EmptyString /\
      preprints_added c' = (preprints_added c + 1)%Z /\
      (preprints_tweeted c' + preprints_tweeted_FAILED c'
       = preprints_tweeted c + preprints_tweeted_FAILED c + 1)%Z
  end.
Proof.
  intros Hnew. pose proof (process_unseen E usetwitter id_log l c w Hnew) as H.
  cbv zeta in *. destruct (fst (process E usetwitter id_log l c w)) as [c'|e];
    [|exact H].
  destruct H as (Htxt & Hadd & Hcount). repeat split; [exact Htxt|exact Hadd|].
  destruct Hcount as [[-> ->] | [-> ->]]; lia.
Qed.

Lemma process_commits_last_witness :
  in_id_log (str_id (id (mkSummary (IdNumber 12345)))) [] = false /\
  id_log_txt
    (snd (process Scenario.unreachable true [] (mkSummary (IdNumber 12345))
            (mkCounters 0 0 0) Scenario.fresh))
  = id_log_txt Scenario.fresh.
Proof.
  split; [reflexivity|].
  exact (process_commits_last Scenario.unreachable true []
           (mkSummary (IdNumber 12345)) (mkCounters 0 0 0) Scenario.fresh
           eq_refl).
Defined.

Lemma id_lines_cons (i : string) (ids : list string) :
  id_lines (i :: ids) = id_line i ++ id_lines ids.
Proof. reflexivity. Qed.

(** What a run of the loop commits and counts. *)
Lemma loop_commits (E : env) (usetwitter : bool) (id_log : list string)
    (n : nat) :
  forall doc c w,
    let r := loop E usetwitter id_log n doc c w in
    exists ids,
      id_log_txt (snd r) = id_log_txt w ++ id_lines ids /\
      Forall (fun i => in_id_log i id_log = false /\
                       In i (List.map (fun l => str_id (id l)) doc)) ids /\
      match fst r with
      | Ok c' =>
          preprints_added c'
          = (preprints_added c + Z.of_nat (List.length ids))%Z /\
          (preprints_tweeted c <= preprints_tweeted c')%Z /\
          (preprints_tweeted_FAILED c <= preprints_tweeted_FAILED c')%Z /\
          (preprints_tweeted c' + preprints_tweeted_FAILED c'
           = preprints_tweeted c + preprints_tweeted_FAILED c
             + Z.of_nat (List.length ids))%Z
      | Raise _ => True
      end.
Proof.
  induction n as [|n IH]; intros doc c w; cbv zeta.
  - exists []. cbn. rewrite StrFacts.app_nil_r.
    repeat split; try constructor; lia.
  - destruct doc as [|l doc]; cbn [loop].
    + exists []. cbn. rewrite StrFacts.app_nil_r. repeat split. constructor.
    + destruct (in_id_log (str_id (id l)) id_log) eqn:Hseen.
      * rewrite (process_seen E usetwitter id_log l c Hseen). unfold bind, ret.
        destruct (IH doc c w) as (ids & Htxt & Hids & Hc). exists ids.
        split; [exact Htxt|]. split; [|exact Hc].
        eapply Forall_impl; [|exact Hids]. cbn. intros i [Hi1 Hi2]. auto.
      * pose proof (process_unseen E usetwitter id_log l c w Hseen) as Hp.
        cbv zeta in Hp. unfold bind.
        destruct (process E usetwitter id_log l c w) as [[c1|e] w1];
          cbn in Hp |- *.
        -- destruct Hp as (Htxt1 & Hadd1 & Hcount1).
           destruct (IH doc c1 w1) as (ids & Htxt & Hids & Hc).
           exists (str_id (id l) :: ids). split; [|split].
           ++ rewrite Htxt, Htxt1, id_lines_cons.
              now rewrite StrFacts.app_assoc.
           ++ constructor; [split; [exact Hseen | now left]|].
              eapply Forall_impl; [|exact Hids]. cbn.
              intros i [Hi1 Hi2]. auto.
           ++ destruct (fst (loop E usetwitter id_log n doc c1 w1));
                [|exact I].
              cbn [List.length]. rewrite Nat2Z.inj_succ.
              destruct Hcount1 as [[Ht Hf] | [Ht Hf]]; lia.
        -- exists []. cbn. rewrite Hp, StrFacts.app_nil_r.
           repeat split. constructor.
Qed.

(** X12: [id_log.txt] only grows, and by whole lines: after a run it is
    what it was, followed by the lines of identifiers that the stream
    yielded and that were not in the loaded log; this holds also for a
    run that ends with an exception. *)
Theorem bot_appends_new_ids (E : env) (usetwitter : bool) (sizeof_doc : Z)
    (doc : list Summary) (w : world) :
  exists ids,
    id_log_txt (snd (bot E usetwitter sizeof_doc doc w))
    = id_log_txt w ++ id_lines ids /\
    Forall (fun i =>
              in_id_log i (load_id_log (id_log_txt w)) = false /\
              In i (List.map (fun l => str_id (id l)) doc)) ids.
Proof.
  unfold bot, bind, read_id_log_txt, write_log. cbn.
  match goal with
  | |- context [loop E usetwitter ?il ?n doc ?c ?w0] =>
      destruct (loop_commits E usetwitter il n doc c w0)
        as (ids & Htxt & Hids & _);
      destruct (loop E usetwitter il n doc c w0) as [[c'|e] w1]
  end; cbn in Htxt |- *; exists ids; split; assumption.
Qed.

(** X13: a run that ends normally has written one run-summary line, the
    last line of the log; the number of new preprints it states is the
    number of lines appended to [id_log.txt] and is the sum of the two
    other numbers, neither of them negative. *)
Theorem bot_summary_counts (E : env) (usetwitter : bool) (sizeof_doc : Z)
    (doc : list Summary) (w : world) :
  let r := bot E usetwitter sizeof_doc doc w in
  fst r = Ok tt ->
  exists ids before tweeted failed,
    activity_log (snd r)
    = (before ++ [LogSummary (Z.of_nat (List.length ids)) tweeted failed])%list /\
    summaries (snd r)
    = (summaries w
         ++ [LogSummary (Z.of_nat (List.length ids)) tweeted failed])%list /\
    id_log_txt (snd r) = id_log_txt w ++ id_lines ids /\
    (Z.of_nat (List.length ids) = tweeted + failed)%Z /\
    (0 <= tweeted)%Z /\ (0 <= failed)%Z.
Proof.
  cbv zeta. unfold bot, bind, read_id_log_txt, write_log. cbn.
  match goal with
  | |- context [loop E usetwitter ?il ?n doc ?c ?w0] =>
      destruct (loop_commits E usetwitter il n doc c w0)
        as (ids & Htxt & _ & Hc);
      pose proof (keeps_summaries_loop E usetwitter il n doc c w0) as Hk;
      destruct (loop E usetwitter il n doc c w0) as [[c'|e] w1]
  end; cbn in Htxt, Hc, Hk |- *; [|discriminate].
  intros _. destruct c' as [a t f]. cbn in Hc |- *.
  destruct Hc as (Ha & Ht & Hf & Hsum). subst a.
  exists ids, (activity_log w1), t, f. repeat split; try lia.
  - unfold summaries in *. cbn. rewrite filter_app, Hk. cbn.
    rewrite <- app_assoc, filter_app. cbn. now rewrite app_nil_r.
  - exact Htxt.
Qed.

Lemma bot_summary_counts_witness :
  fst (bot Scenario.all_fine false 1
         [mkSummary (IdNumber 12345); mkSummary (IdNumber 7)] Scenario.fresh)
  = Ok tt /\
  exists ids before tweeted failed,
    activity_log
      (snd (bot Scenario.all_fine false 1
              [mkSummary (IdNumber 12345); mkSummary (IdNumber 7)]
              Scenario.fresh))
    = (before ++ [LogSummary (Z.of_nat (List.length ids)) tweeted failed])%list /\
    summaries
      (snd (bot Scenario.all_fine false 1
              [mkSummary (IdNumber 12345); mkSummary (IdNumber 7)]
              Scenario.fresh))
    = (summaries Scenario.fresh
         ++ [LogSummary (Z.of_nat (List.length ids)) tweeted failed])%list /\
    id_log_txt
      (snd (bot Scenario.all_fine false 1
              [mkSummary (IdNumber 12345); mkSummary (IdNumber 7)]
              Scenario.fresh))
    = id_log_txt Scenario.fresh ++ id_lines ids /\
    (Z.of_nat (List.length ids) = tweeted + failed)%Z /\
    (0 <= tweeted)%Z /\ (0 <= failed)%Z.
Proof.
  split; [reflexivity|].
  exact (bot_summary_counts Scenario.all_fine false 1
           [mkSummary (IdNumber 12345); mkSummary (IdNumber 7)]
           Scenario.fresh eq_refl).
Defined.

(** Without the posting API, the calls the run makes are downloads and
    fetches from the repository; calls of any other kind are not made. *)
Section DryRun.

Variable E : env.
Variable p : call -> bool.
Hypothesis p_get : forall u, p (RequestsGet u) = false.
Hypothesis p_preprint : forall i, p (ApiPreprint i) = false.
Hypothesis p_files : forall i, p (ApiFiles i) = false.

Lemma keeps_selected_write_log (e : log_entry) :
  keeps (selected_calls p) (write_log e).
Proof. intros w. reflexivity. Qed.

Lemma keeps_selected_outgoing {A : Type} (c : call)
    (answer : list call -> result A) :
  p c = false -> keeps (selected_calls p) (outgoing c answer).
Proof.
  intros Hc w. unfold selected_calls, outgoing. cbn.
  rewrite filter_app. cbn. rewrite Hc. apply app_nil_r.
Qed.

Lemma keeps_selected_local :
  (forall data, keeps (selected_calls p) (write_temp data)) /\
  keeps (selected_calls p) read_temp /\
  keeps (selected_calls p) os_remove_temp /\
  keeps (selected_calls p) os_path_getsize_temp /\
  (forall line, keeps (selected_calls p) (append_id_log line)).
Proof.
  repeat split; intros; intros w;
    unfold write_temp, read_temp, os_remove_temp, os_path_getsize_temp,
      append_id_log; try destruct (temp_png w); reflexivity.
Qed.

Ltac selected_step :=
  first
    [ apply keeps_bind; [|intros ?]
    | apply keeps_ret
    | apply keeps_pure
    | apply keeps_selected_write_log
    | apply keeps_selected_outgoing;
      first [apply p_get | apply p_preprint | apply p_files]
    | apply (proj1 keeps_selected_local)
    | apply (proj1 (proj2 (proj2 (proj2 keeps_selected_local))))
    | apply (proj2 (proj2 (proj2 (proj2 keeps_selected_local))))
    | match goal with
      | |- keeps _ (if ?b then _ else _) => destruct b
      | |- keeps _ (match ?t with Rejected => _ | Text _ => _ end) =>
          destruct t
      end ].

Lemma keeps_selected_tweet_image (url message : string) :
  keeps (selected_calls p) (tweet_image E url message false).
Proof. unfold tweet_image. cbv iota. repeat selected_step. Qed.

Lemma keeps_selected_process (id_log : list string) (l : Summary)
    (c : counters) :
  keeps (selected_calls p) (process E false id_log l c).
Proof.
  unfold process, commit. cbv iota.
  repeat first [ apply keeps_selected_tweet_image | selected_step ].
Qed.

Lemma keeps_selected_loop (id_log : list string) (n : nat) :
  forall doc c, keeps (selected_calls p) (loop E false id_log n doc c).
Proof.
  induction n as [|n IH]; intros doc c; simpl.
  - apply keeps_ret.
  - destruct doc as [|l doc]; [apply keeps_raise|].
    apply keeps_bind; [apply keeps_selected_process | intros c'; apply IH].
Qed.

Lemma keeps_selected_bot (sizeof_doc : Z) (doc : list Summary) :
  keeps (selected_calls p) (bot E false sizeof_doc doc).
Proof.
  unfold bot. apply keeps_bind; [intros w; reflexivity | intros txt].
  repeat first [ apply keeps_selected_loop | selected_step ].
Qed.

End DryRun.

(** X14: a run without the posting API ([--notwitter]) makes no call to
    it and never sleeps, whatever the stream and the services do. *)
Theorem bot_dry_run (E : env) (sizeof_doc : Z) (doc : list Summary)
    (w : world) :
  let w' := snd (bot E false sizeof_doc doc w) in
  filter is_post (calls w') = filter is_post (calls w) /\
  filter is_sleep (calls w') = filter is_sleep (calls w).
Proof.
  cbv zeta. split.
  - apply (keeps_selected_bot E is_post); reflexivity.
  - apply (keeps_selected_bot E is_sleep); reflexivity.
Qed.

(** X15: an article whose message is rejected is committed all the same:
    with both fetches answered and [prepare_tweet] returning [False], the
    turn logs the notice, makes no download and no call to the posting
    API, appends the identifier to [id_log.txt] and counts the article as
    new and as failed. *)
Theorem process_rejected (E : env) (usetwitter : bool)
    (id_log : list string) (l : Summary) (c : counters) (w : world)
    (p : Preprint) (fs : files_json) :
  in_id_log (str_id (id l)) id_log = false ->
  preprint E (calls w) (str_id (id l)) = Ok p ->
  files E (calls w ++ [ApiPreprint (str_id (id l))]) (str_id (id l)) = Ok fs ->
  prepare_tweet (title p) (authors p) (doiRootURL ++ doi p) (tags p)
  = Ok Rejected ->
  process E usetwitter id_log l c w
  = (Ok (mkCounters (preprints_added c + 1) (preprints_tweeted c)
                    (preprints_tweeted_FAILED c + 1)),
     mkWorld
       (activity_log w
          ++ [LogNewPreprint; LogNotice (doiRootURL ++ doi p);
              LogCommitting; LogWrote (p_id p)])
       (id_log_txt w ++ id_line (str_id (id l)))
       (temp_png w)
       (calls w
          ++ [ApiPreprint (str_id (id l)); ApiFiles (str_id (id l))]
          ++ (if usetwitter then [Sleep 1800] else []))).
Proof.
  intros Hnew Hp Hf Hr. run_process. rewrite Hnew. cbn. rewrite Hp. cbn.
  rewrite Hf. cbn.
  match goal with
  | |- context [prepare_tweet ?a ?b ?u ?d] =>
      change (prepare_tweet a b u d)
        with (prepare_tweet (title p) (authors p) (doiRootURL ++ doi p) (tags p))
  end.
  rewrite Hr. cbn.
  destruct usetwitter; cbn; rewrite <- !app_assoc; reflexivity.
Qed.

Lemma process_rejected_witness :
  in_id_log (str_id (id (mkSummary (IdNumber 777)))) [] = false /\
  prepare_tweet (title ScenarioLong.long_article)
    (authors ScenarioLong.long_article)
    (doiRootURL ++ doi ScenarioLong.long_article)
    (tags ScenarioLong.long_article) = Ok Rejected /\
  id_log_txt
    (snd (process ScenarioLong.env_long true [] (mkSummary (IdNumber 777))
            (mkCounters 0 0 0) Scenario.fresh))
  = id_line "777" /\
  filter is_post
    (calls
       (snd (process ScenarioLong.env_long true [] (mkSummary (IdNumber 777))
               (mkCounters 0 0 0) Scenario.fresh)))
  = [].
Proof.
  split; [reflexivity|]. split; [reflexivity|].
  rewrite (process_rejected ScenarioLong.env_long true []
             (mkSummary (IdNumber 777)) (mkCounters 0 0 0) Scenario.fresh
             ScenarioLong.long_article Scenario.article_files
             eq_refl eq_refl eq_refl eq_refl).
  split; reflexivity.
Defined.

(** X16: the loop does not look at what it has committed during the run.
    A summary that is not in the loaded [id_log] and that the stream
    yields [k] times is dealt with [k] times: when the loop returns, the
    line of its identifier has been appended [k] times and the article
    has been counted [k] times. *)
Theorem loop_repeated_summary (E : env) (usetwitter : bool)
    (id_log : list string) (l : Summary) (k : nat) :
  in_id_log (str_id (id l)) id_log = false ->
  forall c w c',
    fst (loop E usetwitter id_log k (repeat l k) c w) = Ok c' ->
    id_log_txt (snd (loop E usetwitter id_log k (repeat l k) c w))
    = id_log_txt w ++ id_lines (repeat (str_id (id l)) k) /\
    preprints_added c' = (preprints_added c + Z.of_nat k)%Z /\
    (preprints_tweeted c' + preprints_tweeted_FAILED c'
     = preprints_tweeted c + preprints_tweeted_FAILED c + Z.of_nat k)%Z.
Proof.
  intros Hnew. induction k as [|k IH]; intros c w c' Hok.
  - cbn in Hok |- *. injection Hok as <-. unfold id_lines. cbn.
    rewrite StrFacts.app_nil_r. repeat split; lia.
  - cbn [repeat loop] in Hok |- *. unfold bind in Hok |- *.
    pose proof (process_unseen E usetwitter id_log l c w Hnew) as Hp.
    cbv zeta in Hp.
    destruct (process E usetwitter id_log l c w) as [[c1|e] w1];
      cbn in Hp; [|discriminate].
    destruct Hp as (Htxt1 & Hadd1 & Hcount1).
    destruct (IH c1 w1 c' Hok) as (Htxt & Hadd & Hcount).
    rewrite Htxt, Htxt1, id_lines_cons, StrFacts.app_assoc.
    rewrite Nat2Z.inj_succ.
    repeat split; [lia|]. destruct Hcount1 as [[Ht Hf] | [Ht Hf]]; lia.
Qed.

Lemma loop_repeated_summary_witness :
  in_id_log (str_id (id (mkSummary (IdNumber 7)))) [] = false /\
  fst (loop Scenario.all_fine false [] 2 (repeat (mkSummary (IdNumber 7)) 2)
         (mkCounters 0 0 0) Scenario.fresh)
  = Ok (mkCounters 2 2 0) /\
  id_log_txt
    (snd (loop Scenario.all_fine false [] 2 (repeat (mkSummary (IdNumber 7)) 2)
            (mkCounters 0 0 0) Scenario.fresh))
  = id_log_txt Scenario.fresh ++ id_lines (repeat (str_id (id (mkSummary (IdNumber 7)))) 2).
Proof.
  split; [reflexivity|]. split; [reflexivity|].
  exact (proj1 (loop_repeated_summary Scenario.all_fine false []
                  (mkSummary (IdNumber 7)) 2 eq_refl
                  (mkCounters 0 0 0) Scenario.fresh (mkCounters 2 2 0)
                  eq_refl)).
Defined.

(** ** The paging of the repository *)

Module FigshareFacts.

Import Figshare.

(** Once the generator has ended, more turns change nothing. *)
Lemma query_generator_more_turns {A : Type} (server : Z -> result (body A))
    (turns : nat) :
  forall n more,
    ended (query_generator server turns n) <> Running ->
    query_generator server (turns + more) n = query_generator server turns n.
Proof.
  induction turns as [|turns IH]; intros n more Hend.
  - cbn in Hend. contradiction.
  - cbn [Nat.add query_generator] in Hend |- *.
    destruct (server n) as [[r|r]|e]; try reflexivity.
    destruct (Z.of_nat (List.length r) =? 0)%Z; [reflexivity|].
    cbn in Hend. now rewrite IH.
Qed.

End FigshareFacts.

(** X17: [query_generator] asks for the offsets [n], [n + 100], ... in
    turn and yields the items of each page that is a non-empty list, in
    order, whatever the length of the page.  It ends at the first answer
    that is an empty list (it returns), that is no list (it yields the
    answer and returns) or that is an error (it raises, after the items
    of the pages before); these are its only ends. *)
Theorem query_generator_pages {A : Type}
    (server : Z -> result (Figshare.body A)) (pages : list (list A))
    (last : result (Figshare.body A)) (items : list A)
    (e : Figshare.ending) :
  forall n turns,
    Figshare.serves server n pages last ->
    Figshare.closes last = Some (items, e) ->
    (List.length pages < turns)%nat ->
    Figshare.query_generator server turns n
    = Figshare.mkDrained (concat pages ++ items)
        (Figshare.offsets_from n (S (List.length pages))) e.
Proof.
  induction pages as [|page rest IH]; intros n turns Hserves Hlast Hturns;
    (destruct turns as [|turns]; [simpl in Hturns; lia|]);
    cbn [Figshare.serves] in Hserves; cbn [Figshare.query_generator].
  - rewrite Hserves. destruct last as [[[|x r]|r]|err]; cbn in Hlast;
      try discriminate; injection Hlast as <- <-; reflexivity.
  - destruct Hserves as (Hne & Hpage & Hrest). rewrite Hpage.
    destruct page as [|x page]; [contradiction|].
    cbn [List.length]. rewrite Nat2Z.inj_succ.
    destruct (Z.succ (Z.of_nat (List.length page)) =? 0)%Z eqn:Hz;
      [apply Z.eqb_eq in Hz; lia|].
    rewrite (IH (n + Figshare.pagesize)%Z turns Hrest Hlast)
      by (simpl in Hturns; lia).
    cbn. now rewrite <- app_assoc.
Qed.

Lemma query_generator_pages_witness :
  Figshare.serves
    (fun n => if (n =? 0)%Z then Ok (Figshare.Items [1; 2; 3]%Z)
              else if (n =? 100)%Z then Ok (Figshare.Items [4]%Z)
              else Ok (Figshare.Items []))
    0 [[1; 2; 3]; [4]]%Z (Ok (Figshare.Items [])) /\
  Figshare.closes (Ok (Figshare.Items (@nil Z))) = Some ([], Figshare.Returned) /\
  (List.length [[1; 2; 3]; [4]]%Z < 5)%nat /\
  Figshare.query_generator
    (fun n => if (n =? 0)%Z then Ok (Figshare.Items [1; 2; 3]%Z)
              else if (n =? 100)%Z then Ok (Figshare.Items [4]%Z)
              else Ok (Figshare.Items []))
    5 0
  = Figshare.mkDrained [1; 2; 3; 4]%Z [0; 100; 200]%Z Figshare.Returned.
Proof.
  assert (Hs : Figshare.serves
    (fun n => if (n =? 0)%Z then Ok (Figshare.Items [1; 2; 3]%Z)
              else if (n =? 100)%Z then Ok (Figshare.Items [4]%Z)
              else Ok (Figshare.Items []))
    0 [[1; 2; 3]; [4]]%Z (Ok (Figshare.Items []))).
  { cbn. repeat split; discriminate. }
  assert (Hl : (List.length [[1; 2; 3]; [4]]%Z < 5)%nat) by (cbn; lia).
  split; [exact Hs|]. split; [reflexivity|]. split; [exact Hl|].
  exact (query_generator_pages _ [[1; 2; 3]; [4]]%Z (Ok (Figshare.Items []))
           [] Figshare.Returned 0%Z 5%nat Hs eq_refl Hl).
Defined.

(** X18: [query_list] gives all the items when the generator returns, and
    raises the error of the failing request when there is one: the items
    of the pages fetched before the error are lost. *)
Theorem query_list_result {A : Type}
    (server : Z -> result (Figshare.body A)) (pages : list (list A))
    (last : result (Figshare.body A)) (items : list A)
    (e : Figshare.ending) (turns : nat) :
  Figshare.serves server 0 pages last ->
  Figshare.closes last = Some (items, e) ->
  (List.length pages < turns)%nat ->
  Figshare.query_list server turns
  = match last with
    | Raise err => Some (Raise err)
    | Ok _ => Some (Ok (concat pages ++ items)%list)
    end.
Proof.
  intros Hserves Hlast Hturns. unfold Figshare.query_list.
  rewrite (query_generator_pages server pages last items e 0%Z turns
             Hserves Hlast Hturns). cbn.
  destruct last as [[[|x r]|r]|err]; cbn in Hlast; try discriminate;
    injection Hlast as <- <-; reflexivity.
Qed.

Lemma query_list_result_witness :
  Figshare.serves
    (fun n => if (n =? 0)%Z then Ok (Figshare.Items [1; 2; 3]%Z)
              else Raise HTTPError)
    0 [[1; 2; 3]]%Z (Raise HTTPError) /\
  Figshare.closes (@Raise (Figshare.body Z) HTTPError)
  = Some ([], Figshare.Raised HTTPError) /\
  (List.length [[1; 2; 3]]%Z < 2)%nat /\
  Figshare.query_list
    (fun n => if (n =? 0)%Z then Ok (Figshare.Items [1; 2; 3]%Z)
              else Raise HTTPError) 2
  = Some (Raise HTTPError).
Proof.
  assert (Hs : Figshare.serves
    (fun n => if (n =? 0)%Z then Ok (Figshare.Items [1; 2; 3]%Z)
              else Raise HTTPError)
    0 [[1; 2; 3]]%Z (Raise HTTPError)).
  { cbn. repeat split; discriminate. }
  assert (Hl : (List.length [[1; 2; 3]]%Z < 2)%nat) by (cbn; lia).
  split; [exact Hs|]. split; [reflexivity|]. split; [exact Hl|].
  exact (query_list_result _ [[1; 2; 3]]%Z (Raise HTTPError) []
           (Figshare.Raised HTTPError) 2%nat Hs eq_refl Hl).
Defined.

(** X19: against a repository that answers every request with a list
    that is not empty, the generator never ends: however many turns it is
    followed, it is still running, and it has asked for one page each
    turn. *)
Theorem query_generator_endless {A : Type}
    (server : Z -> result (Figshare.body A)) :
  (forall n, exists x page, server n = Ok (Figshare.Items (x :: page))) ->
  forall turns n,
    Figshare.ended (Figshare.query_generator server turns n)
    = Figshare.Running /\
    Figshare.offsets (Figshare.query_generator server turns n)
    = Figshare.offsets_from n turns.
Proof.
  intros Hfull. induction turns as [|turns IH]; intros n;
    [split; reflexivity|].
  cbn [Figshare.query_generator Figshare.offsets_from].
  destruct (Hfull n) as (x & page & ->).
  cbn [List.length]. rewrite Nat2Z.inj_succ.
  destruct (Z.succ (Z.of_nat (List.length page)) =? 0)%Z eqn:Hz;
    [apply Z.eqb_eq in Hz; lia|].
  cbn. destruct (IH (n + Figshare.pagesize)%Z) as [-> ->]. split; reflexivity.
Qed.

Lemma query_generator_endless_witness :
  (forall n : Z, exists x page,
     (fun m : Z => Ok (Figshare.Items [m])) n = Ok (Figshare.Items (x :: page))) /\
  Figshare.ended
    (Figshare.query_generator (fun m : Z => Ok (Figshare.Items [m])) 3 0)
  = Figshare.Running.
Proof.
  assert (H : forall n : Z, exists x page,
     (fun m : Z => Ok (Figshare.Items [m])) n = Ok (Figshare.Items (x :: page)))
    by (intros n; exists n, []; reflexivity).
  split; [exact H|].
  exact (proj1 (query_generator_endless _ H 3%nat 0%Z)).
Defined.

(** ** Custom fields *)

Module CustomFieldsFacts.

Import CustomFields.

Lemma dict_get_set (k k' v : string) (d : dict) :
  dict_get k (dict_set k' v d)
  = if String.eqb k' k then Some v else dict_get k d.
Proof.
  induction d as [|[k0 v0] d IH]; cbn [dict_set dict_get].
  - destruct (String.eqb k' k); reflexivity.
  - destruct (String.eqb k0 k') eqn:H0; cbn [dict_get].
    + apply String.eqb_eq in H0. subst k0.
      destruct (String.eqb k' k); reflexivity.
    + rewrite IH. destruct (String.eqb k0 k) eqn:H1; [|reflexivity].
      apply String.eqb_eq in H1. subst k0.
      destruct (String.eqb k' k) eqn:H2; [|reflexivity].
      apply String.eqb_eq in H2. subst k'.
      rewrite String.eqb_refl in H0. discriminate.
Qed.

Lemma dict_keys_set (k v : string) (d : dict) :
  dict_keys (dict_set k v d)
  = if existsb (String.eqb k) (dict_keys d) then dict_keys d
    else (dict_keys d ++ [k])%list.
Proof.
  induction d as [|[k0 v0] d IH]; [reflexivity|].
  cbn [dict_set dict_keys List.map fst existsb].
  rewrite (String.eqb_sym k k0).
  destruct (String.eqb k0 k) eqn:H0; cbn [orb List.map fst]; [reflexivity|].
  fold (dict_keys (dict_set k v d)). fold (dict_keys d). rewrite IH.
  destruct (existsb (String.eqb k) (dict_keys d)); reflexivity.
Qed.

Lemma dict_set_nodup (k v : string) (d : dict) :
  NoDup (dict_keys d) -> NoDup (dict_keys (dict_set k v d)).
Proof.
  intros Hd. rewrite dict_keys_set.
  destruct (existsb (String.eqb k) (dict_keys d)) eqn:Hk; [exact Hd|].
  apply NoDup_app; [exact Hd | constructor; [intros [] | constructor] |].
  intros x Hx [Heq | []]. subst x.
  assert (Hex : existsb (String.eqb k) (dict_keys d) = true)
    by (apply existsb_exists; exists k; split;
        [exact Hx | apply String.eqb_refl]).
  congruence.
Qed.

Lemma find_last {A : Type} (f : A -> bool) (l : list A) (x : A) :
  find f (l ++ [x])
  = match find f l with
    | Some y => Some y
    | None => if f x then Some x else None
    end.
Proof.
  induction l as [|a l IH]; cbn; [reflexivity|].
  destruct (f a); [reflexivity | exact IH].
Qed.

Lemma fold_dict_get (k : string) (fs : list field) :
  forall d,
    dict_get k (fold_left (fun d i => dict_set (name i) (value i) d) fs d)
    = match find (fun i => String.eqb (name i) k) (rev fs) with
      | Some i => Some (value i)
      | None => dict_get k d
      end.
Proof.
  induction fs as [|i fs IH]; intros d; [reflexivity|].
  cbn [fold_left rev]. rewrite IH, find_last, dict_get_set.
  destruct (find (fun i0 => String.eqb (name i0) k) (rev fs));
    [reflexivity|].
  destruct (String.eqb (name i) k); reflexivity.
Qed.

Lemma fold_dict_nodup (fs : list field) :
  forall d, NoDup (dict_keys d) ->
    NoDup (dict_keys
             (fold_left (fun d i => dict_set (name i) (value i) d) fs d)).
Proof.
  induction fs as [|i fs IH]; intros d Hd; [exact Hd|].
  cbn [fold_left]. apply IH. now apply dict_set_nodup.
Qed.

End CustomFieldsFacts.

(** X20: in the dictionary of the custom fields every name is a key once,
    with the value of the last field of that name; a name that no field
    has is no key. *)
Theorem custom_fields_last_wins (custom_fields : list CustomFields.field)
    (k : string) :
  CustomFields.dict_get k (CustomFields.custom_fields_as_dict custom_fields)
  = option_map CustomFields.value
      (find (fun i => String.eqb (CustomFields.name i) k) (rev custom_fields))
  /\
  NoDup (CustomFields.dict_keys
           (CustomFields.custom_fields_as_dict custom_fields)).
Proof.
  unfold CustomFields.custom_fields_as_dict. split.
  - rewrite CustomFieldsFacts.fold_dict_get.
    destruct (find _ (rev custom_fields)); reflexivity.
  - apply CustomFieldsFacts.fold_dict_nodup. constructor.
Qed.

(** ** The counts of a live run *)

Ltac hide_lengths :=
  repeat match goal with
    | |- context [@Datatypes.length call ?l] =>
        let n := fresh "n" in
        set (n := @Datatypes.length call l) in *; clearbody n
    end.

Lemma tweet_image_live (E : env) (url message : string) (w : world) :
  let r := tweet_image E url message true w in
  selected_calls is_sleep (snd r) = selected_calls is_sleep w /\
  (fst r = Ok tt ->
   List.length (selected_calls is_post (snd r))
   = S (List.length (selected_calls is_post w))).
Proof.
  cbv zeta. unfold selected_calls.
  poster_cases E url message w; normalize_calls;
    (split; [reflexivity|]); intros Hok; try discriminate;
    rewrite ?length_app; cbn; lia.
Qed.

(** One turn of a live run on a summary that is not in [id_log]. *)
Lemma process_live_counts (E : env) (id_log : list string) (l : Summary)
    (c : counters) (w : world) :
  in_id_log (str_id (id l)) id_log = false ->
  let r := process E true id_log l c w in
  match fst r with
  | Ok c' =>
      (Z.of_nat (List.length (selected_calls is_post (snd r)))
       = Z.of_nat (List.length (selected_calls is_post w))
         + (preprints_tweeted c' - preprints_tweeted c))%Z /\
      (Z.of_nat (List.length (selected_calls is_sleep (snd r)))
       = Z.of_nat (List.length (selected_calls is_sleep w))
         + (preprints_added c' - preprints_added c))%Z
  | Raise _ => True
  end.
Proof.
  intros Hnew. cbv zeta. run_process. rewrite Hnew. cbn.
  destruct (preprint E (calls w) (str_id (id l))) as [p|e]; cbn; [|exact I].
  destruct (files E _ (str_id (id l))) as [fs|e]; cbn; [|exact I].
  match goal with
  | |- context [prepare_tweet ?a ?b ?u ?d] =>
      destruct (prepare_tweet a b u d) as [[|t]|e]; cbn; [| |exact I]
  end.
  - unfold selected_calls. cbn. rewrite !filter_app. cbn.
    rewrite !length_app. cbn. hide_lengths. lia.
  - match goal with
    | |- context [tweet_image E ?u ?m true ?w1] =>
        pose proof (tweet_image_live E u m w1) as Hlive;
        destruct (tweet_image E u m true w1) as [[[]|?e] w2];
        cbn in Hlive |- *; [|exact I]
    end.
    destruct Hlive as [Hsleep Hpost]. specialize (Hpost eq_refl).
    unfold selected_calls in *. cbn in *. rewrite !filter_app in *. cbn in *.
    rewrite !length_app in *. cbn in *. rewrite !app_nil_r in Hsleep.
    rewrite Hsleep. hide_lengths. lia.
Qed.

Lemma loop_live_counts (E : env) (id_log : list string) (n : nat) :
  forall doc c w,
    let r := loop E true id_log n doc c w in
    match fst r with
    | Ok c' =>
        (Z.of_nat (List.length (selected_calls is_post (snd r)))
         = Z.of_nat (List.length (selected_calls is_post w))
           + (preprints_tweeted c' - preprints_tweeted c))%Z /\
        (Z.of_nat (List.length (selected_calls is_sleep (snd r)))
         = Z.of_nat (List.length (selected_calls is_sleep w))
           + (preprints_added c' - preprints_added c))%Z
    | Raise _ => True
    end.
Proof.
  induction n as [|n IH]; intros doc c w; cbv zeta.
  - cbn. lia.
  - destruct doc as [|l doc]; cbn [loop]; [exact I|].
    destruct (in_id_log (str_id (id l)) id_log) eqn:Hseen.
    + rewrite (process_seen E true id_log l c Hseen). unfold bind, ret.
      apply IH.
    + pose proof (process_live_counts E id_log l c w Hseen) as Hp.
      cbv zeta in Hp. unfold bind.
      destruct (process E true id_log l c w) as [[c1|e] w1]; cbn in Hp |- *;
        [|exact I].
      specialize (IH doc c1 w1). cbv zeta in IH.
      destruct (fst (loop E true id_log n doc c1 w1)); [|exact I]. lia.
Qed.

(** X21: the numbers of a live run are true: when the run ends normally,
    the number of tweets its summary line states is the number of calls
    it has made to the posting API, and the number of new preprints it
    states is the number of times it has slept. *)
Theorem bot_live_counts (E : env) (sizeof_doc : Z) (doc : list Summary)
    (w : world) :
  let r := bot E true sizeof_doc doc w in
  fst r = Ok tt ->
  exists before added tweeted failed,
    activity_log (snd r) = (before ++ [LogSummary added tweeted failed])%list /\
    (Z.of_nat (List.length (filter is_post (calls (snd r))))
     = Z.of_nat (List.length (filter is_post (calls w))) + tweeted)%Z /\
    (Z.of_nat (List.length (filter is_sleep (calls (snd r))))
     = Z.of_nat (List.length (filter is_sleep (calls w))) + added)%Z.
Proof.
  cbv zeta. unfold bot, bind, read_id_log_txt, write_log. cbn.
  match goal with
  | |- context [loop E true ?il ?n doc ?c ?w0] =>
      pose proof (loop_live_counts E il n doc c w0) as Hc;
      destruct (loop E true il n doc c w0) as [[c'|e] w1]
  end; cbn in Hc |- *; [|discriminate].
  intros _. destruct c' as [a t f]. unfold selected_calls in Hc. cbn in Hc.
  exists (activity_log w1), a, t, f. split; [reflexivity|]. lia.
Qed.

Lemma bot_live_counts_witness :
  fst (bot Scenario.all_fine true 1
         [mkSummary (IdNumber 12345); mkSummary (IdNumber 7)] Scenario.fresh)
  = Ok tt /\
  exists before added tweeted failed,
    activity_log
      (snd (bot Scenario.all_fine true 1
              [mkSummary (IdNumber 12345); mkSummary (IdNumber 7)]
              Scenario.fresh))
    = (before ++ [LogSummary added tweeted failed])%list /\
    (Z.of_nat
       (List.length
          (filter is_post
             (calls
                (snd (bot Scenario.all_fine true 1
                        [mkSummary (IdNumber 12345); mkSummary (IdNumber 7)]
                        Scenario.fresh)))))
     = Z.of_nat (List.length (filter is_post (calls Scenario.fresh)))
       + tweeted)%Z /\
    (Z.of_nat
       (List.length
          (filter is_sleep
             (calls
                (snd (bot Scenario.all_fine true 1
                        [mkSummary (IdNumber 12345); mkSummary (IdNumber 7)]
                        Scenario.fresh)))))
     = Z.of_nat (List.length (filter is_sleep (calls Scenario.fresh)))
       + added)%Z.
Proof.
  split; [reflexivity|].
  exact (bot_live_counts Scenario.all_fine 1
           [mkSummary (IdNumber 12345); mkSummary (IdNumber 7)]
           Scenario.fresh eq_refl).
Defined.

(** ** A run that finds nothing new *)

Lemma loop_seen_result (E : env) (usetwitter : bool) (id_log : list string)
    (n : nat) :
  forall doc c w,
    Forall (fun l => in_id_log (str_id (id l)) id_log = true) doc ->
    loop E usetwitter id_log n doc c w
    = (if (List.length doc <? n)%nat then Raise StopIteration else Ok c, w).
Proof.
  induction n as [|n IH]; intros doc c w Hseen.
  - reflexivity.
  - destruct doc as [|l doc]; [reflexivity|].
    inversion Hseen as [|? ? Hl Hdoc]; subst. cbn [loop].
    rewrite (process_seen E usetwitter id_log l c Hl). unfold bind, ret.
    rewrite (IH doc c w Hdoc). reflexivity.
Qed.

(** X22: a run on a stream that holds nothing new.  When every identifier
    of the stream is in the loaded log, the run logs its two opening
    lines and then, if the stream has at least [sys.getsizeof(doc)]
    summaries, the summary line with three zeros, and ends normally; if
    the stream has fewer, it ends with [StopIteration] and without
    summary line. *)
Theorem bot_nothing_new (E : env) (usetwitter : bool) (sizeof_doc : Z)
    (doc : list Summary) (w : world) :
  Forall (fun l => in_id_log (str_id (id l)) (load_id_log (id_log_txt w)) = true)
         doc ->
  bot E usetwitter sizeof_doc doc w
  = if (Z.of_nat (List.length doc) <? sizeof_doc)%Z
    then (Raise StopIteration,
          mkWorld (activity_log w ++ [LogIdLogLoaded; LogRetrieved sizeof_doc])
                  (id_log_txt w) (temp_png w) (calls w))
    else (Ok tt,
          mkWorld (activity_log w
                     ++ [LogIdLogLoaded; LogRetrieved sizeof_doc;
                         LogSummary 0 0 0])
                  (id_log_txt w) (temp_png w) (calls w)).
Proof.
  intros Hseen. unfold bot, bind, read_id_log_txt, write_log. cbn.
  rewrite (loop_seen_result E usetwitter _ _ doc _ _ Hseen).
  destruct (Z.of_nat (List.length doc) <? sizeof_doc)%Z eqn:Hz.
  - apply Z.ltb_lt in Hz.
    rewrite (proj2 (Nat.ltb_lt _ _)) by lia. cbn.
    now rewrite <- !app_assoc.
  - apply Z.ltb_ge in Hz.
    rewrite (proj2 (Nat.ltb_ge _ _)) by lia. cbn.
    now rewrite <- !app_assoc.
Qed.

Lemma bot_nothing_new_witness :
  Forall (fun l =>
            in_id_log (str_id (id l))
              (load_id_log
                 (id_log_txt (mkWorld [] (id_lines ["123"; "456"]) None [])))
            = true)
         [mkSummary (IdNumber 456); mkSummary (IdNumber 123)] /\
  bot Scenario.unreachable true 112
    [mkSummary (IdNumber 456); mkSummary (IdNumber 123)]
    (mkWorld [] (id_lines ["123"; "456"]) None [])
  = (Raise StopIteration,
     mkWorld [LogIdLogLoaded; LogRetrieved 112] (id_lines ["123"; "456"])
             None []).
Proof.
  assert (H : Forall (fun l =>
            in_id_log (str_id (id l))
              (load_id_log
                 (id_log_txt (mkWorld [] (id_lines ["123"; "456"]) None [])))
            = true)
         [mkSummary (IdNumber 456); mkSummary (IdNumber 123)])
    by (repeat constructor).
  split; [exact H|].
  exact (bot_nothing_new Scenario.unreachable true 112
           [mkSummary (IdNumber 456); mkSummary (IdNumber 123)]
           (mkWorld [] (id_lines ["123"; "456"]) None []) H).
Defined.
